(** * trs-to-webvtt: the converter of [convert.py] and its specification

    A shallow embedding of [convert.py] (the functions [format_time],
    [generate_timestamp] and [convert]) together with the parts of the Python
    runtime they call: [str] methods, [float], [datetime.timedelta] and
    [xml.etree.ElementTree].  Definitions come first, theorems follow. *)

From Stdlib Require Import ZArith Lia Ascii String.
From stdpp Require Import gmap strings list.

(** Python [str] values are lists of characters.  Characters are the code
    points below 256; a string literal stands for the list of its
    characters. *)
Abbreviation str := (list ascii).
Coercion list_ascii_of_string : string >-> list.
Arguments list_ascii_of_string : simpl never.

(** ** Exceptions *)

(** The exceptions the converter can raise.  A [KeyError] carries the key
    that was looked up. *)
Inductive exn :=
| AttributeError
| KeyError (key : str)
| ValueError
| OverflowError.

Inductive result (A : Type) :=
| Ok (a : A)
| Raise (e : exn).
Arguments Ok {A} a.
Arguments Raise {A} e.

Definition bind {A B} (m : result A) (k : A → result B) : result B :=
  match m with
  | Ok a => k a
  | Raise e => Raise e
  end.

Notation "'let!' x := m 'in' k" := (bind m (λ x, k))
  (at level 10, x pattern, m at level 100, k at level 200,
   format "'[v' 'let!'  x  :=  m  'in' '/' k ']'").

(** [foldM f l s] runs the body [f] of a [for] loop over [l], threading the
    loop state and stopping at the first exception. *)
Fixpoint foldM {A S} (f : S → A → result S) (l : list A) (s : S) : result S :=
  match l with
  | [] => Ok s
  | x :: l' => let! s' := f s x in foldM f l' s'
  end.

Definition is_ok {A} (r : result A) : Prop := ∃ a, r = Ok a.
Definition fails {A} (r : result A) : Prop := ∃ e, r = Raise e.

(** ** The Python runtime *)

Module Py.

(** [str.isspace] on one character (code points below 256). *)
Definition isspace (c : ascii) : bool :=
  let n := N_of_ascii c in
  ((9 <=? n) && (n <=? 13) || (28 <=? n) && (n <=? 32)
   || (n =? 133) || (n =? 160))%N.

(** Removal of the leading characters that satisfy [sp]. *)
Fixpoint lstrip_by (sp : ascii → bool) (s : str) : str :=
  match s with
  | c :: s' => if sp c then lstrip_by sp s' else s
  | [] => []
  end.

Definition strip_by (sp : ascii → bool) (s : str) : str :=
  reverse (lstrip_by sp (reverse (lstrip_by sp s))).

(** [s.strip()] *)
Definition strip (s : str) : str := strip_by isspace s.

(** [sep.join(ls)] *)
Fixpoint join (sep : str) (ls : list str) : str :=
  match ls with
  | [] => []
  | [x] => x
  | x :: rest => x ++ sep ++ join sep rest
  end.

(** [c in s] for a one-character [c] *)
Definition contains_char (c : ascii) (s : str) : bool := bool_decide (c ∈ s).

(** Truthiness of a string: [if s:] *)
Definition truthy (s : str) : bool :=
  match s with [] => false | _ => true end.

(** *** Decimal rendering of integers: [%d], [%02d], [%06d] *)

Definition digit_char (d : Z) : ascii := ascii_of_N (48 + Z.to_N d).

(** Digits of a non-negative [n], least significant first. *)
Fixpoint digits_rev (fuel : nat) (n : Z) : str :=
  match fuel with
  | O => []
  | S fuel' =>
      digit_char (n mod 10)
        :: (if (n <? 10)%Z then [] else digits_rev fuel' (n / 10))
  end.

Definition str_nonneg (n : Z) : str :=
  reverse (digits_rev (S (Z.to_nat (Z.log2 n))) n).

(** ["%d" % n] *)
Definition str_int (n : Z) : str :=
  if (n <? 0)%Z then "-" ++ str_nonneg (- n) else str_nonneg n.

(** ["%0<width>d" % n]: the sign, then zeros up to [width], then the
    digits. *)
Definition fmt_d (width : nat) (n : Z) : str :=
  if (n <? 0)%Z then
    let ds := str_nonneg (- n) in
    "-" ++ replicate (width - 1 - length ds) "0"%char ++ ds
  else
    let ds := str_nonneg n in
    replicate (width - length ds) "0"%char ++ ds.

(** *** [float] *)

(** A Python [float] is an IEEE 754 binary64 number; a finite one is kept
    as its exact value [m * 2^e]. *)
Inductive float :=
| Finite (m e : Z)
| Infinity (negative : bool)
| NaN.

Definition round_half_even (p q : Z) : Z :=
  let d := (p / q)%Z in
  match (2 * (p mod q) ?= q)%Z with
  | Lt => d
  | Gt => (d + 1)%Z
  | Eq => if Z.even d then d else (d + 1)%Z
  end.

(** [pow2_le p q k]: [2^k <= p / q], for [p, q > 0] and any integer [k]. *)
Definition pow2_le (p q k : Z) : bool :=
  if (0 <=? k)%Z then (q * 2 ^ k <=? p)%Z else (q <=? p * 2 ^ (- k))%Z.

(** The binary64 number nearest to [p / q] ([p, q > 0], ties to even):
    53 bits of mantissa, exponents from -1074, infinite from [2^1024]. *)
Definition binary64_round (p q : Z) : option (Z * Z) :=
  let l := (Z.log2 p - Z.log2 q)%Z in
  let k := if pow2_le p q l then l else (l - 1)%Z in
  let e := Z.max (k - 52) (-1074) in
  let m :=
    if (0 <=? e)%Z then round_half_even p (q * 2 ^ e)
    else round_half_even (p * 2 ^ (- e)) q in
  if (971 <? e)%Z || (e =? 971)%Z && (2 ^ 53 <=? m)%Z then None
  else Some (m, e).

(** The float nearest to [(-1)^neg * d * 10^e10]. *)
Definition float_of_decimal (neg : bool) (d e10 : Z) : float :=
  if (d =? 0)%Z then Finite 0 0
  else
    let r :=
      if (0 <=? e10)%Z then binary64_round (d * 10 ^ e10) 1
      else binary64_round d (10 ^ (- e10)) in
    match r with
    | Some (m, e) => Finite (if neg then (- m)%Z else m) e
    | None => Infinity neg
    end.

Definition is_digit (c : ascii) : bool :=
  let n := N_of_ascii c in ((48 <=? n) && (n <=? 57))%N.

Definition digit_val (c : ascii) : Z := (Z.of_N (N_of_ascii c) - 48)%Z.

Definition Z_of_digits (ds : str) : Z :=
  fold_left (λ acc c, (10 * acc + digit_val c)%Z) ds 0%Z.

(** The longest prefix of digits, and the rest. *)
Fixpoint span_digits (s : str) : str * str :=
  match s with
  | c :: s' =>
      if is_digit c then let '(ds, r) := span_digits s' in (c :: ds, r)
      else ([], s)
  | [] => ([], [])
  end.

(** Underscores in a numeric literal: each must stand between two digits;
    the result is the literal without them. *)
Fixpoint drop_underscores (prev : ascii) (s : str) : option str :=
  match s with
  | [] => if decide (prev = "_"%char) then None else Some []
  | c :: s' =>
      if decide (c = "_"%char) then
        if is_digit prev then drop_underscores c s' else None
      else if bool_decide (prev = "_"%char) && negb (is_digit c) then None
      else (c ::.) <$> drop_underscores c s'
  end.

(** The white space [float] skips around a literal: the ASCII white space
    of C, and the non-ASCII spaces, which it first turns into blanks. *)
Definition float_space (c : ascii) : bool :=
  let n := N_of_ascii c in
  ((9 <=? n) && (n <=? 13) || (n =? 32) || (n =? 133) || (n =? 160))%N.

Definition split_sign (s : str) : bool * str :=
  match s with
  | c :: s' =>
      if decide (c = "-"%char) then (true, s')
      else if decide (c = "+"%char) then (false, s')
      else (false, s)
  | [] => (false, [])
  end.

(** ASCII lower case, for the case-insensitive [inf] and [nan]. *)
Definition lower (c : ascii) : ascii :=
  let n := N_of_ascii c in
  if ((65 <=? n) && (n <=? 90))%N then ascii_of_N (n + 32) else c.

(** A decimal literal: an optional sign, digits, an optional point and
    more digits (at least one digit in all), an optional exponent [e] or
    [E] with optional sign and at least one digit.  The whole string must
    be consumed. *)
Definition parse_decimal (s : str) : option float :=
  let '(neg, s1) := split_sign s in
  let '(ip, s2) := span_digits s1 in
  let '(fp, s3) :=
    match s2 with
    | c :: s2' => if decide (c = "."%char) then span_digits s2' else ([], s2)
    | [] => ([], [])
    end in
  match ip ++ fp with
  | [] => None
  | ds =>
      let '(ex, s4) :=
        match s3 with
        | c :: s3' =>
            if decide (lower c = "e"%char) then
              let '(eneg, s3'') := split_sign s3' in
              let '(ed, rest) := span_digits s3'' in
              match ed with
              | [] => (0%Z, s3)
              | _ => ((if eneg then - Z_of_digits ed else Z_of_digits ed)%Z,
                      rest)
              end
            else (0%Z, s3)
        | [] => (0%Z, [])
        end in
      match s4 with
      | [] => Some (float_of_decimal neg (Z_of_digits ds)
                      (ex - Z.of_nat (length fp)))
      | _ => None
      end
  end.

Definition parse_inf_nan (s : str) : option float :=
  let '(neg, s1) := split_sign s in
  let w : str := map lower s1 in
  if decide (w = ("inf" : str)) then Some (Infinity neg)
  else if decide (w = ("infinity" : str)) then Some (Infinity neg)
  else if decide (w = ("nan" : str)) then Some NaN
  else None.

(** [float(s)] for a string [s]. *)
Definition float_of_str (s : str) : result float :=
  match drop_underscores "000"%char s with
  | None => Raise ValueError
  | Some s' =>
      let t := strip_by float_space s' in
      match parse_decimal t with
      | Some x => Ok x
      | None =>
          match parse_inf_nan t with
          | Some x => Ok x
          | None => Raise ValueError
          end
      end
  end.

End Py.

(** ** [datetime.timedelta] *)

Module Datetime.

(** A duration, normalised: [0 <= seconds < 86400],
    [0 <= microseconds < 1000000], [|days| <= 999999999]. *)
Record timedelta := Timedelta {
  days : Z;
  seconds : Z;
  microseconds : Z
}.

Local Open Scope Z_scope.

(** Integer part (towards zero) and the numerator of the fractional part
    over [2^(-e)] of the float [m * 2^e]. *)
Definition modf (m e : Z) : Z * Z :=
  if 0 <=? e then (m * 2 ^ e, 0)
  else (Z.quot m (2 ^ (- e)), Z.rem m (2 ^ (- e))).

(** [fracpart * 1000000] in float arithmetic, for the fractional part
    [n / 2^(-e)] with [n <> 0]. *)
Definition scale_fraction (n e : Z) : Z * Z :=
  match Py.binary64_round (1000000 * Z.abs n) (2 ^ (- e)) with
  | Some (m, e') => (Z.sgn n * m, e')
  | None => (0, 0)
  end.

(** Rounding of the left-over fraction [n / 2^(-e)] of a microsecond to a
    whole number of microseconds: to nearest, and a half to the side that
    makes the total [y] even. *)
Definition round_leftover (y n e : Z) : Z :=
  match 2 * Z.abs n ?= 2 ^ (- e) with
  | Lt => 0
  | Gt => Z.sgn n
  | Eq => if Z.odd y then Z.sgn n else 0
  end.

(** The number of microseconds in [x] seconds. *)
Definition microseconds_of (m e : Z) : Z :=
  let '(intpart, frac) := modf m e in
  let sum := intpart * 1000000 in
  if frac =? 0 then sum
  else
    let '(m2, e2) := scale_fraction frac e in
    let '(intpart2, leftover) := modf m2 e2 in
    let y := sum + intpart2 in
    y + round_leftover y leftover e2.

Definition of_microseconds (us : Z) : result timedelta :=
  let secs := us / 1000000 in
  let d := secs / 86400 in
  if Z.abs d <=? 999999999 then
    Ok (Timedelta d (secs mod 86400) (us mod 1000000))
  else Raise OverflowError.

(** [timedelta(seconds=x)] for a float [x]. *)
Definition of_seconds (x : Py.float) : result timedelta :=
  match x with
  | Py.Finite m e => of_microseconds (microseconds_of m e)
  | Py.Infinity _ => Raise OverflowError
  | Py.NaN => Raise ValueError
  end.

(** [str(td)] *)
Definition to_str (td : timedelta) : str :=
  let mm := seconds td / 60 in
  let ss := seconds td mod 60 in
  let hh := mm / 60 in
  let mm := mm mod 60 in
  let s := Py.str_int hh ++ ":" ++ Py.fmt_d 2 mm ++ ":" ++ Py.fmt_d 2 ss in
  let s :=
    if days td =? 0 then s
    else Py.str_int (days td) ++ " day"
           ++ (if Z.abs (days td) =? 1 then "" else "s") ++ ", " ++ s in
  if microseconds td =? 0 then s
  else s ++ "." ++ Py.fmt_d 6 (microseconds td).

End Datetime.

(** ** [convert.py]: time formatting *)

(** The string part of [format_time], on the duration [timedelta] built. *)
Definition format_timedelta (td : Datetime.timedelta) : str :=
  let time := "0" ++ take 11 (Datetime.to_str td) in
  if Py.contains_char "." time then
    time ++ replicate (12 - length time) "0"%char
  else time ++ ".000".

Definition format_time (time : str) : result str :=
  let! x := Py.float_of_str time in
  let! td := Datetime.of_seconds x in
  Ok (format_timedelta td).

Definition generate_timestamp (start_time end_time : str) : result str :=
  let! s := format_time start_time in
  let! e := format_time end_time in
  Ok (s ++ " --> " ++ e).

(** ** [xml.etree.ElementTree] *)

Module ElementTree.

(** A parsed element: its tag, its attributes, the text before its first
    child, the text after its end tag ([None] when there is none) and its
    children. *)
#[warnings="-register-all"] Inductive Element := mkElement {
  tag : str;
  attrib : gmap str str;
  text : option str;
  tail : option str;
  children : list Element
}.

(** [e.iter(tag)]: [e] and its descendants in document order, those with
    the given tag only; [e.iter()] ([None]) yields them all. *)
Fixpoint iter (t : option str) (e : Element) : list Element :=
  match e with
  | mkElement tg _ _ _ cs =>
      (if decide (t = None ∨ t = Some tg) then [e] else [])
        ++ flat_map (iter t) cs
  end.

(** [e.find(tag)]: the first child of [e] with this tag. *)
Definition find (t : str) (e : Element) : option Element :=
  head (filter (λ c, tag c = t) (children e)).

End ElementTree.

Import ElementTree.

(** ** [convert.py]: the cue builder *)

(** A dictionary literal. *)
Definition dict (kvs : list (string * string)) : gmap str str :=
  list_to_map ((λ kv, (list_ascii_of_string kv.1, list_ascii_of_string kv.2)) <$> kvs).

(** [d[k]] *)
Definition getitem (d : gmap str str) (k : str) : result str :=
  match d !! k with
  | Some v => Ok v
  | None => Raise (KeyError k)
  end.

(** [x.strip()] for an [x] that may be [None]. *)
Definition strip_opt (x : option str) : result str :=
  match x with
  | Some s => Ok (Py.strip s)
  | None => Raise AttributeError
  end.

Definition noise : gmap str str :=
  dict [("COUGH", " <i>(coughs)</i> ");
        ("EE-HESITATION", " <i>(hesitates)</i> ");
        ("LAUGHTER", " <i>(laughs)</i> ");
        ("LIP_SMACK", " <i>(smacks lips)</i> ");
        ("LOUD_BREATH", " <i>(breaths loudly)</i> ");
        ("NOISE", " <i>(noise)</i> ");
        ("SILENCE", " <i>(silence)</i> ");
        ("UH-HUH", " <i>(uh-huh)</i> ");
        ("UNINTELLIGIBLE", " <i>(unintelligible)</i> ")].

(** The dictionary [speakers]: identifier to name, a later [Speaker] with
    the same identifier replacing an earlier one. *)
Definition read_speakers (root : Element) : result (gmap str str) :=
  match find "Speakers" root with
  | None => Raise AttributeError
  | Some sp =>
      foldM (λ d speaker,
               let! id := getitem (attrib speaker) "id" in
               let! name := getitem (attrib speaker) "name" in
               Ok (<[id := name]> d))
            (iter (Some ("Speaker" : str)) sp) ∅
  end.

(** The variables of the loop over a turn's annotations. *)
Record walk := Walk {
  vtt_lines : list str;
  start_time : str;
  end_time : str;
  text_acc : str
}.

(** The three lines of a cue, appended to [vtt_lines]. *)
Definition append_cue (add_speakers : bool) (speaker_prefix : str)
    (lines : list str) (t0 t1 text : str) : result (list str) :=
  let! stamp := generate_timestamp t0 t1 in
  Ok (lines ++ [stamp;
                (if add_speakers then speaker_prefix else []) ++ Py.strip text;
                []]).

(** The body of [for annotation in turn.iter()]. *)
Definition visit (add_speakers preserve_noise : bool) (speaker_prefix : str)
    (w : walk) (annotation : Element) : result walk :=
  if decide (tag annotation = "Turn") then Ok w
  else if decide (tag annotation = "Sync") then
    let! t := getitem (attrib annotation) "time" in
    let! (lines, text) :=
      if Py.truthy (text_acc w) then
        let! lines :=
          append_cue add_speakers speaker_prefix
            (vtt_lines w) (start_time w) t (text_acc w) in
        Ok (lines, [])
      else Ok (vtt_lines w, text_acc w) in
    let! fragment := strip_opt (tail annotation) in
    Ok (Walk lines t t (text ++ fragment))
  else if decide (tag annotation = "Event") then
    let! text :=
      if preserve_noise then
        let! desc := getitem (attrib annotation) "desc" in
        let! markup := getitem noise desc in
        Ok (text_acc w ++ markup)
      else Ok (text_acc w) in
    let! fragment := strip_opt (tail annotation) in
    Ok (Walk (vtt_lines w) (start_time w) (end_time w) (text ++ fragment))
  else Ok w.

(** The body of [for turn in section.iter("Turn")]. *)
Definition visit_turn (add_speakers preserve_noise : bool)
    (speakers : gmap str str) (lines : list str) (turn : Element)
    : result (list str) :=
  let speaker := default [] (speakers !! default [] (attrib turn !! ("speaker" : str))) in
  let speaker_prefix := "<v " ++ speaker ++ ">" in
  let! t0 := getitem (attrib turn) "startTime" in
  let! w := foldM (visit add_speakers preserve_noise speaker_prefix)
              (iter None turn) (Walk lines t0 [] []) in
  if Py.truthy (text_acc w) then
    let! t1 := getitem (attrib turn) "endTime" in
    append_cue add_speakers speaker_prefix
      (vtt_lines w) (start_time w) t1 (text_acc w)
  else Ok (vtt_lines w).

(** The body of [for section in root.find("Episode").iter("Section")]. *)
Definition visit_section (add_speakers preserve_noise : bool)
    (speakers : gmap str str) (lines : list str) (section : Element)
    : result (list str) :=
  foldM (visit_turn add_speakers preserve_noise speakers)
    (iter (Some ("Turn" : str)) section) lines.

(** The file prefix.  [language] is [None] when the caller passes [None],
    as the command line does without [-l]. *)
Definition header (language : option str) : list str :=
  match language with
  | Some (c :: l) => ["WEBVTT" : str; "Language: " ++ c :: l; []]
  | _ => ["WEBVTT" : str; []]
  end.

(** [vtt_lines] at the end of [convert], for the parsed document [root]. *)
Definition convert_lines (root : Element) (language : option str)
    (add_speakers preserve_noise : bool) : result (list str) :=
  let! speakers := read_speakers root in
  match find "Episode" root with
  | None => Raise AttributeError
  | Some episode =>
      foldM (visit_section add_speakers preserve_noise speakers)
        (iter (Some ("Section" : str)) episode) (header language)
  end.

(** [convert]: the lines joined by newlines. *)
Definition convert (root : Element) (language : option str)
    (add_speakers preserve_noise : bool) : result str :=
  let! lines := convert_lines root language add_speakers preserve_noise in
  Ok (Py.join ["010"%char] lines).

(** ** Cues *)

(** The converter appends a cue to [vtt_lines] as three lines and keeps no
    record of it.  The definitions below follow the same walk and record, for
    each cue, its range as read from the document, the speaker name and the
    accumulated text; [convert_lines_cues] relates the two. *)

Record Cue := mkCue {
  cue_start : str;
  cue_end : str;
  cue_speaker : str;
  cue_text : str
}.

Record cue_walk := CueWalk {
  cues : list Cue;
  cw_start : str;
  cw_text : str
}.

Definition cue_visit (preserve_noise : bool) (speaker : str)
    (w : cue_walk) (annotation : Element) : result cue_walk :=
  if decide (tag annotation = "Turn") then Ok w
  else if decide (tag annotation = "Sync") then
    let! t := getitem (attrib annotation) "time" in
    let '(cs, text) :=
      if Py.truthy (cw_text w)
      then (cues w ++ [mkCue (cw_start w) t speaker (cw_text w)], [])
      else (cues w, cw_text w) in
    let! fragment := strip_opt (tail annotation) in
    Ok (CueWalk cs t (text ++ fragment))
  else if decide (tag annotation = "Event") then
    let! text :=
      if preserve_noise then
        let! desc := getitem (attrib annotation) "desc" in
        let! markup := getitem noise desc in
        Ok (cw_text w ++ markup)
      else Ok (cw_text w) in
    let! fragment := strip_opt (tail annotation) in
    Ok (CueWalk (cues w) (cw_start w) (text ++ fragment))
  else Ok w.

Definition speaker_of (speakers : gmap str str) (turn : Element) : str :=
  default [] (speakers !! default [] (attrib turn !! ("speaker" : str))).

(** The cues of one turn. *)
Definition turn_cues (preserve_noise : bool) (speakers : gmap str str)
    (turn : Element) : result (list Cue) :=
  let speaker := speaker_of speakers turn in
  let! t0 := getitem (attrib turn) "startTime" in
  let! w := foldM (cue_visit preserve_noise speaker)
              (iter None turn) (CueWalk [] t0 []) in
  if Py.truthy (cw_text w) then
    let! t1 := getitem (attrib turn) "endTime" in
    Ok (cues w ++ [mkCue (cw_start w) t1 speaker (cw_text w)])
  else Ok (cues w).

(** The turns in the order the two outer loops visit them. *)
Definition visited_turns (root : Element) : list Element :=
  match find "Episode" root with
  | Some episode =>
      flat_map (iter (Some ("Turn" : str))) (iter (Some ("Section" : str)) episode)
  | None => []
  end.

(** The elements the innermost loop body is run on, in order. *)
Definition annotations (root : Element) : list Element :=
  flat_map (iter None) (visited_turns root).

(** The cues of the document, turn after turn. *)
Definition document_cues (root : Element) (preserve_noise : bool)
    : result (list Cue) :=
  let! speakers := read_speakers root in
  match find "Episode" root with
  | None => Raise AttributeError
  | Some _ =>
      foldM (λ cs turn,
               let! tc := turn_cues preserve_noise speakers turn in
               Ok (cs ++ tc))
            (visited_turns root) []
  end.

(** The three lines of a cue. *)
Definition cue_lines (add_speakers : bool) (c : Cue) : result (list str) :=
  let! stamp := generate_timestamp (cue_start c) (cue_end c) in
  Ok [stamp;
      (if add_speakers then "<v " ++ cue_speaker c ++ ">" else [])
        ++ Py.strip (cue_text c);
      []].

(** The lines of a list of cues, in order. *)
Definition cues_lines (add_speakers : bool) (cs : list Cue)
    : result (list str) :=
  foldM (λ ls c, let! b := cue_lines add_speakers c in Ok (ls ++ b)) cs [].

(** ** Predicates of the specification *)

(** The shape [HH:MM:SS.mmm]: two or more digits, then two, two and three. *)
Definition is_timestamp (s : str) : bool :=
  let '(hh, rest) := Py.span_digits s in
  bool_decide (2 ≤ length hh) &&
  match rest with
  | [c1; m1; m2; c2; s1; s2; c3; f1; f2; f3] =>
      bool_decide (c1 = ":"%char) && Py.is_digit m1 && Py.is_digit m2
      && bool_decide (c2 = ":"%char) && Py.is_digit s1 && Py.is_digit s2
      && bool_decide (c3 = "."%char)
      && Py.is_digit f1 && Py.is_digit f2 && Py.is_digit f3
  | _ => false
  end.

(** What follows the first point of [s]. *)
Fixpoint after_point (s : str) : str :=
  match s with
  | [] => []
  | c :: s' => if decide (c = "."%char) then s' else after_point s'
  end.

(** The number of fractional digits of a formatted time. *)
Definition fraction_digits (s : str) : nat := length (after_point s).

(** [starts_with p s]: [s.startswith(p)]. *)
Fixpoint starts_with (p s : str) : bool :=
  match p, s with
  | [], _ => true
  | a :: p', b :: s' => bool_decide (a = b) && starts_with p' s'
  | _ :: _, [] => false
  end.


(** The times the walk reads in a turn, in order: [startTime], the time of
    each [Sync], [endTime]. *)
Definition turn_times (turn : Element) : list str :=
  option_list (attrib turn !! ("startTime" : str))
    ++ omap (λ a, if decide (tag a = "Sync")
                  then attrib a !! ("time" : str) else None)
         (iter None turn)
    ++ option_list (attrib turn !! ("endTime" : str)).

Definition timeline (root : Element) : list str :=
  flat_map turn_times (visited_turns root).

(** [l] is non-decreasing for the order [le] on time codes. *)
Definition monotone (le : str → str → Prop) (l : list str) : Prop :=
  ∀ i j a b, i ≤ j → l !! i = Some a → l !! j = Some b → le a b.

(** The order of time codes by the number of microseconds they stand for. *)
Definition time_us (t : str) : option Z :=
  match Py.float_of_str t with
  | Ok (Py.Finite m e) => Some (Datetime.microseconds_of m e)
  | _ => None
  end.

Definition time_le (a b : str) : Prop :=
  match time_us a, time_us b with
  | Some x, Some y => (x ≤ y)%Z
  | _, _ => False
  end.

(** Every [Sync] of the list carries trailing text that is not blank. *)
Definition syncs_carry_text (l : list Element) : Prop :=
  ∀ a, a ∈ l → tag a = "Sync" →
    ∃ t, tail a = Some t ∧ Py.strip t ≠ [].

(** A [Sync] or [Event] with no trailing text. *)
Definition tailless (a : Element) : Prop :=
  (tag a = "Sync" ∨ tag a = "Event") ∧ tail a = None.

(** An [Event] whose code is not a key of [noise]. *)
Definition unknown_event (a : Element) : Prop :=
  tag a = "Event" ∧
  ∃ code, attrib a !! ("desc" : str) = Some code ∧ noise !! code = None.

(** ** Rewriting a document *)

(** [relabel g e]: [e] with the attributes and the tail of every element
    replaced by what [g] gives for its tag, attributes and tail. *)
Fixpoint relabel
    (g : str → gmap str str → option str → gmap str str * option str)
    (e : Element) : Element :=
  match e with
  | mkElement tg at' tx tl cs =>
      mkElement tg (g tg at' tl).1 tx (g tg at' tl).2 (map (relabel g) cs)
  end.

(** The document with the code of every [Event] changed by [f] (set,
    replaced or removed). *)
Definition recode_events (f : option str → option str) : Element → Element :=
  relabel (λ tg at' tl,
             (if decide (tg = "Event") then partial_alter f ("desc" : str) at'
              else at', tl)).

(** The document with every absent tail taken as the empty string. *)
Definition fill_tails : Element → Element :=
  relabel (λ tg at' tl, (at', Some (default [] tl))).

(** ** Documents of the examples *)

Definition element (tg : string) (attrs : list (string * string))
    (tl : option string) (cs : list Element) : Element :=
  mkElement tg (dict attrs) None (list_ascii_of_string <$> tl) cs.

(** A document with the given speakers and one section of the given turns. *)
Definition document (speakers turns : list Element) : Element :=
  element "Trans" [] None
    [element "Speakers" [] None speakers;
     element "Episode" [] None [element "Section" [] None turns]].

Definition alice : Element :=
  element "Speaker" [("id", "spk1"); ("name", "Alice")] None [].

(** The scenario of the specification: one turn of Alice from 0 to 5 with a
    [Sync] at 2 followed by the text. *)
Definition doc_hello : Element :=
  document [alice]
    [element "Turn" [("speaker", "spk1"); ("startTime", "0"); ("endTime", "5")]
       None
       [element "Sync" [("time", "2")] (Some "Hello there") []]].

(** A turn whose second [Sync] is followed by no text before the third. *)
Definition turn_gap : Element :=
  element "Turn" [("startTime", "0"); ("endTime", "3")] None
    [element "Sync" [("time", "0")] (Some "a") [];
     element "Sync" [("time", "1")] (Some " ") [];
     element "Sync" [("time", "2")] (Some "b") []].

Definition doc_gap : Element := document [] [turn_gap].


(** A turn whose text reads like the language line. *)
Definition doc_language_text : Element :=
  document [alice]
    [element "Turn" [("speaker", "spk1"); ("startTime", "0"); ("endTime", "5")]
       None
       [element "Sync" [("time", "0")] (Some "Language: en") []]].

(** A turn with an event of an unknown code. *)
Definition doc_unknown_event : Element :=
  document [alice]
    [element "Turn" [("speaker", "spk1"); ("startTime", "0"); ("endTime", "5")]
       None
       [element "Sync" [("time", "0")] (Some "one") [];
        element "Event" [("desc", "SNEEZE")] (Some "two") []]].


(** The lines of the converter's walk and the cues of the recording walk
    agree: above [base], [vtt_lines] holds the lines of the cues so far, and
    the two walks hold the same start time and text. *)
Definition walk_cues (add_speakers : bool) (base : list str)
    (w : walk) (cw : cue_walk) : Prop :=
  ∃ body, cues_lines add_speakers (cues cw) = Ok body
          ∧ vtt_lines w = base ++ body
          ∧ start_time w = cw_start cw
          ∧ text_acc w = cw_text cw.

(** [inked sp s]: [s] has a character that [sp] does not take for white
    space. *)
Definition inked (sp : ascii → bool) (s : str) : Prop :=
  Exists (λ c, sp c = false) s.

(** The invariant of the walk behind the cues' texts: the accumulated text
    is empty or holds a character that is not white space, and so does the
    text of every cue recorded. *)
Definition texts_inked (cw : cue_walk) : Prop :=
  (cw_text cw = [] ∨ inked Py.isspace (cw_text cw))
  ∧ Forall (λ c, inked Py.isspace (cue_text c)) (cues cw).

(** [chars_in cls s]: every character of [s] is a digit or one of [cls]. *)
Definition chars_in (cls s : str) : Prop :=
  Forall (λ c, Py.is_digit c = true ∨ c ∈ cls) s.

(** ** The times of the cues *)

(** The times of a list of cues, in order: the start and the end of each. *)
Definition cue_times (cs : list Cue) : list str :=
  flat_map (λ c, [cue_start c; cue_end c]) cs.

(** The times the [Sync] elements of a list give, in order. *)
Definition sync_times (l : list Element) : list str :=
  omap (λ a, if decide (tag a = "Sync")
             then attrib a !! ("time" : str) else None) l.

(** Each time code twice. *)
Definition twice (l : list str) : list str := flat_map (λ t, [t; t]) l.

(** [ordered le l]: every element of [l] is related to itself and to those
    after it. *)
Fixpoint ordered (le : str → str → Prop) (l : list str) : Prop :=
  match l with
  | [] => True
  | a :: l' => Forall (le a) (a :: l') ∧ ordered le l'
  end.

(** Each cue ends where the next one starts. *)
Definition contiguous (cs : list Cue) : Prop :=
  ∀ i c1 c2, cs !! i = Some c1 → cs !! S i = Some c2 →
    cue_end c1 = cue_start c2.

(** The invariant of the walk over a turn whose [Sync] elements all carry
    text: the cues are contiguous, and after a first cue the walk starts
    where the last cue ended and holds text. *)
Definition linked (cw : cue_walk) : Prop :=
  contiguous (cues cw)
  ∧ ∀ c, last (cues cw) = Some c →
      cue_end c = cw_start cw ∧ cw_text cw ≠ [].

(** The times of the cues so far and the start of the next one are among
    the times [ts] read so far, in their order. *)
Definition chained (cw : cue_walk) (ts : list str) : Prop :=
  cue_times (cues cw) ++ [cw_start cw] `sublist_of` twice ts.

(** The text line of a cue: the voice tag of the speaker, when speakers are
    added, and the trimmed text. *)
Definition text_line (add_speakers : bool) (c : Cue) : str :=
  (if add_speakers then "<v " ++ cue_speaker c ++ ">" else [])
    ++ Py.strip (cue_text c).

(** ** The lines of the output text *)

(** The lines of a text, [s.split("\n")]: its pieces between the
    newlines. *)
Fixpoint split_lines (s : str) : list str :=
  match s with
  | [] => [[]]
  | c :: s' =>
      if decide (c = "010"%char) then [] :: split_lines s'
      else match split_lines s' with
           | l :: ls => (c :: l) :: ls
           | [] => [[c]]
           end
  end.



(** ** The segments of a turn *)

(** What an [Event] adds to the text: its markup, with noise preservation,
    and its trimmed tail.  Other elements add nothing. *)
Definition appended (preserve_noise : bool) (a : Element) : str :=
  if decide (tag a = "Event") then
    (if preserve_noise
     then default [] (attrib a !! ("desc" : str) ≫= (noise !!.))
     else [])
      ++ Py.strip (default [] (tail a))
  else [].

(** The segments of a list of annotations: a [Sync] ends the segment that
    started at [t] with the text [text], and starts, at its own time and
    with its trimmed tail, the next one; the last segment ends at [t_end].
    A segment is written as a cue, with its range and its text. *)
Fixpoint segments (preserve_noise : bool) (speaker : str) (l : list Element)
    (t text t_end : str) : list Cue :=
  match l with
  | [] => [mkCue t t_end speaker text]
  | a :: l' =>
      if decide (tag a = "Sync") then
        let t' := default [] (attrib a !! ("time" : str)) in
        mkCue t t' speaker text
          :: segments preserve_noise speaker l' t'
               (Py.strip (default [] (tail a))) t_end
      else
        segments preserve_noise speaker l' t
          (text ++ appended preserve_noise a) t_end
  end.

(** The segments of a turn, from its [startTime] to its [endTime]. *)
Definition turn_segments (preserve_noise : bool) (speakers : gmap str str)
    (turn : Element) : list Cue :=
  segments preserve_noise (speaker_of speakers turn) (iter None turn)
    (default [] (attrib turn !! ("startTime" : str))) []
    (default [] (attrib turn !! ("endTime" : str))).

(** The segments with text. *)
Definition with_text (l : list Cue) : list Cue :=
  filter (λ c, cue_text c ≠ []) l.

(** ** More documents of the examples *)


(** A turn whose text has two lines, the second like a language line. *)
Definition doc_two_lines : Element :=
  document [alice]
    [element "Turn" [("speaker", "spk1"); ("startTime", "0"); ("endTime", "5")]
       None
       [mkElement "Sync" (dict [("time", "0")]) None
          (Some ("first line" ++ "010"%char :: "Language: fr")) []]].

(** [trimmed s]: [s] has no white space at its ends. *)
Definition trimmed (s : str) : Prop :=
  Py.lstrip_by Py.isspace s = s
  ∧ Py.lstrip_by Py.isspace (reverse s) = reverse s.

(** The names the [Speaker] elements of a list give for an identifier, in
    order. *)
Definition names_of (id : str) (l : list Element) : list str :=
  omap (λ s, if decide (attrib s !! ("id" : str) = Some id)
             then attrib s !! ("name" : str) else None) l.

(** * Theorems *)

(** ** Exceptions and loops *)

Lemma bind_ok {A B} (m : result A) (k : A → result B) b :
  bind m k = Ok b ↔ ∃ a, m = Ok a ∧ k a = Ok b.
Proof.
  destruct m as [a|e]; simpl; split.
  - eauto.
  - by intros (a' & [= ->] & ?).
  - discriminate.
  - by intros (? & [=] & _).
Qed.

Lemma bind_raise {A B} (m : result A) (k : A → result B) e :
  bind m k = Raise e ↔ m = Raise e ∨ ∃ a, m = Ok a ∧ k a = Raise e.
Proof.
  destruct m as [a|e']; simpl; split.
  - eauto.
  - by intros [[=] | (a' & [= ->] & ?)].
  - intros [= ->]; auto.
  - by intros [[= ->] | (? & [=] & _)].
Qed.

Lemma ok_or_fails {A} (r : result A) : is_ok r ∨ fails r.
Proof. destruct r; [left | right]; eexists; reflexivity. Qed.

Lemma not_ok_fails {A} (r : result A) : ¬ is_ok r ↔ fails r.
Proof.
  split.
  - destruct (ok_or_fails r); tauto.
  - intros [e ->] [a [=]].
Qed.

Lemma fails_bind {A B} (m : result A) (k : A → result B) :
  fails m → fails (bind m k).
Proof. intros [e ->]. by exists e. Qed.

Lemma fails_bind_k {A B} (m : result A) (k : A → result B) :
  (∀ a, fails (k a)) → fails (bind m k).
Proof. intros Hk. destruct m as [a|e]; simpl; [apply Hk | by exists e]. Qed.

(** Inverts a hypothesis [bind m k = Ok b]. *)
Ltac bind_inv H :=
  let a := fresh "a" in
  let E := fresh "E" in
  apply bind_ok in H as (a & E & H).

Lemma foldM_app {A S} (f : S → A → result S) l1 l2 s :
  foldM f (l1 ++ l2) s = let! s' := foldM f l1 s in foldM f l2 s'.
Proof.
  revert s. induction l1 as [|x l1 IH]; intros s; simpl; [done|].
  destruct (f s x); simpl; [apply IH | done].
Qed.

Lemma foldM_snoc {A S} (f : S → A → result S) l x s :
  foldM f (l ++ [x]) s = let! s' := foldM f l s in f s' x.
Proof.
  rewrite foldM_app. destruct (foldM f l s) as [s'|]; simpl; [|done].
  by destruct (f s' x).
Qed.

(** A loop nested in a loop is one loop over the concatenation. *)
Lemma foldM_flat_map {A B S} (f : S → B → result S) (g : A → list B) l s :
  foldM (λ s x, foldM f (g x) s) l s = foldM f (flat_map g l) s.
Proof.
  revert s. induction l as [|x l IH]; intros s; simpl; [done|].
  rewrite foldM_app. destruct (foldM f (g x) s); simpl; [apply IH | done].
Qed.

(** A loop that meets an element on which its body always raises, raises. *)
Lemma foldM_fails {A S} (f : S → A → result S) l x :
  x ∈ l → (∀ s, fails (f s x)) → ∀ s, fails (foldM f l s).
Proof.
  intros Hx Hf. induction l as [|y l IH]; intros s; [by inversion Hx|].
  simpl. apply elem_of_cons in Hx as [<- | Hx].
  - by apply fails_bind.
  - apply fails_bind_k. auto.
Qed.

Lemma foldM_ext {A S} (f g : S → A → result S) l s :
  (∀ s x, x ∈ l → f s x = g s x) → foldM f l s = foldM g l s.
Proof.
  revert s. induction l as [|x l IH]; intros s Hfg; simpl; [done|].
  rewrite Hfg by left. destruct (g s x); simpl; [|done].
  apply IH. intros. apply Hfg. by right.
Qed.

(** An invariant of the loop state holds at the end of a loop that does not
    raise. *)
Lemma foldM_invariant {A S} (I : S → Prop) (f : S → A → result S) l s s' :
  (∀ s x s', x ∈ l → I s → f s x = Ok s' → I s') →
  I s → foldM f l s = Ok s' → I s'.
Proof.
  revert s. induction l as [|x l IH]; intros s Hf Hs H; simpl in H.
  - by injection H as <-.
  - bind_inv H. eapply IH, H.
    + intros ???? . apply Hf. by right.
    + eapply Hf, E; [by left | done].
Qed.

(** ** The walk and its cues *)

Lemma cues_lines_acc spk cs acc :
  foldM (λ ls c, let! b := cue_lines spk c in Ok (ls ++ b)) cs acc
  = let! body := cues_lines spk cs in Ok (acc ++ body).
Proof.
  unfold cues_lines. revert acc.
  induction cs as [|c cs IH]; intros acc; simpl.
  - by rewrite app_nil_r.
  - destruct (cue_lines spk c) as [b|e]; simpl; [|done].
    rewrite (IH (acc ++ b)), (IH b).
    destruct (foldM _ cs []) as [body|]; simpl; [|done].
    by rewrite app_assoc.
Qed.

Lemma cues_lines_app spk cs1 cs2 :
  cues_lines spk (cs1 ++ cs2)
  = let! a := cues_lines spk cs1 in
    let! b := cues_lines spk cs2 in Ok (a ++ b).
Proof.
  unfold cues_lines at 1. rewrite foldM_app. fold (cues_lines spk cs1).
  destruct (cues_lines spk cs1) as [a|]; simpl; [|done].
  apply cues_lines_acc.
Qed.

Lemma cues_lines_one spk c : cues_lines spk [c] = cue_lines spk c.
Proof. unfold cues_lines. simpl. by destruct (cue_lines spk c). Qed.

Lemma append_cue_cue_lines spk speaker ls t0 t1 text :
  append_cue spk ("<v " ++ speaker ++ ">") ls t0 t1 text
  = let! b := cue_lines spk (mkCue t0 t1 speaker text) in Ok (ls ++ b).
Proof.
  unfold append_cue, cue_lines. simpl.
  by destruct (generate_timestamp t0 t1).
Qed.

(** Appending a cue to the lines is recording it, when its times format. *)
Lemma append_cue_ok spk speaker base body ls' cs t0 t1 text :
  cues_lines spk cs = Ok body →
  append_cue spk ("<v " ++ speaker ++ ">") (base ++ body) t0 t1 text = Ok ls' ↔
  ∃ body', cues_lines spk (cs ++ [mkCue t0 t1 speaker text]) = Ok body'
           ∧ ls' = base ++ body'.
Proof.
  intros Hcs. rewrite append_cue_cue_lines, cues_lines_app, Hcs, cues_lines_one.
  simpl. destruct (cue_lines spk _) as [b|e]; simpl.
  - rewrite <- app_assoc. split.
    + intros [= <-]. eauto.
    + by intros (? & [= <-] & ->).
  - split; [done | by intros (? & [=] & _)].
Qed.

Lemma visit_cue_visit spk noise speaker base w a w' cw :
  visit spk noise ("<v " ++ speaker ++ ">") w a = Ok w' →
  walk_cues spk base w cw →
  ∃ cw', cue_visit noise speaker cw a = Ok cw' ∧ walk_cues spk base w' cw'.
Proof.
  intros Hv (body & Hbody & Hl & Hs & Ht).
  unfold visit in Hv. unfold cue_visit. rewrite <- Ht, <- Hs.
  repeat case_decide.
  - injection Hv as <-. eexists. split; [done|]. by exists body.
  - bind_inv Hv. rewrite E. simpl.
    destruct (Py.truthy (text_acc w)).
    + bind_inv Hv. destruct a1 as [ls tx]. bind_inv E0.
      injection E0 as <- <-. rewrite Hl in E1.
      destruct (proj1 (append_cue_ok _ _ _ _ _ _ _ _ _ Hbody) E1)
        as (body' & Hb' & ->).
      bind_inv Hv. rewrite E0. simpl. injection Hv as <-.
      eexists. split; [done|]. by exists body'.
    + simpl in Hv. bind_inv Hv. rewrite E0. simpl. injection Hv as <-.
      eexists. split; [done|]. by exists body.
  - bind_inv Hv. rewrite E. simpl. bind_inv Hv. rewrite E0. simpl.
    injection Hv as <-. eexists. split; [done|]. by exists body.
  - injection Hv as <-. eexists. split; [done|]. by exists body.
Qed.

Lemma foldM_visit_cue_visit spk noise speaker base l w w' cw :
  foldM (visit spk noise ("<v " ++ speaker ++ ">")) l w = Ok w' →
  walk_cues spk base w cw →
  ∃ cw', foldM (cue_visit noise speaker) l cw = Ok cw'
         ∧ walk_cues spk base w' cw'.
Proof.
  revert w cw. induction l as [|a l IH]; intros w cw H Hsim; simpl in *.
  - injection H as <-. eauto.
  - bind_inv H.
    destruct (visit_cue_visit _ _ _ _ _ _ _ _ E Hsim) as (cw1 & -> & Hsim1).
    simpl. eauto.
Qed.

(** The lines of a turn are the lines of its cues. *)
Lemma visit_turn_cues spk noise speakers ls turn ls' :
  visit_turn spk noise speakers ls turn = Ok ls' →
  ∃ tc body, turn_cues noise speakers turn = Ok tc
             ∧ cues_lines spk tc = Ok body ∧ ls' = ls ++ body.
Proof.
  unfold visit_turn, turn_cues. fold (speaker_of speakers turn).
  intros H. bind_inv H. rewrite E. simpl. bind_inv H.
  destruct (foldM_visit_cue_visit spk noise _ ls _ _ _ (CueWalk [] a []) E0)
    as (cw & -> & body & Hbody & Hl & Hs & Ht).
  { exists []. by rewrite app_nil_r. }
  simpl. rewrite <- Ht, <- Hs. destruct (Py.truthy (text_acc a0)).
  - bind_inv H. rewrite E1. simpl. rewrite Hl in H.
    destruct (proj1 (append_cue_ok _ _ _ _ _ _ _ _ _ Hbody) H)
      as (body' & Hb' & ->).
    eauto.
  - injection H as <-. eauto.
Qed.

Lemma convert_lines_unfold root language spk noise :
  convert_lines root language spk noise
  = let! speakers := read_speakers root in
    match find "Episode" root with
    | None => Raise AttributeError
    | Some _ =>
        foldM (visit_turn spk noise speakers) (visited_turns root)
          (header language)
    end.
Proof.
  unfold convert_lines, visited_turns, visit_section.
  destruct (read_speakers root); simpl; [|done].
  destruct (find _ root); [|done]. apply foldM_flat_map.
Qed.

Lemma foldM_visit_turn_cues spk noise speakers l ls ls' :
  foldM (visit_turn spk noise speakers) l ls = Ok ls' →
  ∃ cs body,
    foldM (λ cs turn, let! tc := turn_cues noise speakers turn in Ok (cs ++ tc))
      l [] = Ok cs
    ∧ cues_lines spk cs = Ok body ∧ ls' = ls ++ body.
Proof.
  revert ls'. induction l as [|turn l IH] using rev_ind; intros ls' H.
  - injection H as <-. exists [], []. by rewrite app_nil_r.
  - rewrite foldM_snoc in H. bind_inv H.
    destruct (IH _ E) as (cs & body & Hcs & Hbody & ->).
    apply visit_turn_cues in H as (tc & b & Htc & Hb & ->).
    exists (cs ++ tc), (body ++ b). rewrite foldM_snoc, Hcs. simpl.
    rewrite Htc. simpl. rewrite cues_lines_app, Hbody, Hb. simpl.
    by rewrite app_assoc.
Qed.

(** The lines [convert] builds are the header and the lines of the cues of
    the document. *)
Lemma convert_lines_cues root language spk noise lines :
  convert_lines root language spk noise = Ok lines →
  ∃ cs body, document_cues root noise = Ok cs
             ∧ cues_lines spk cs = Ok body
             ∧ lines = header language ++ body.
Proof.
  rewrite convert_lines_unfold. unfold document_cues.
  intros H. bind_inv H. rewrite E. simpl.
  destruct (find _ root); [|done].
  by apply foldM_visit_turn_cues.
Qed.

(** ** Stripping *)

Lemma inked_app sp s t : inked sp (s ++ t) ↔ inked sp s ∨ inked sp t.
Proof. apply Exists_app. Qed.

Lemma inked_reverse sp s : inked sp (reverse s) ↔ inked sp s.
Proof.
  unfold inked. rewrite !Exists_exists.
  by setoid_rewrite elem_of_reverse.
Qed.

Lemma inked_not_nil sp s : inked sp s → s ≠ [].
Proof. by destruct 1. Qed.

(** What [lstrip_by] leaves is empty or begins with a character that is not
    white space. *)
Lemma lstrip_by_head sp s :
  Py.lstrip_by sp s = [] ∨ ∃ c r, Py.lstrip_by sp s = c :: r ∧ sp c = false.
Proof.
  induction s as [|c s IH]; simpl; [by left|].
  destruct (sp c) eqn:Hc; [done|]. right. eauto.
Qed.

Lemma lstrip_by_inked sp s : inked sp (Py.lstrip_by sp s) ↔ inked sp s.
Proof.
  induction s as [|c s IH]; simpl; [done|].
  destruct (sp c) eqn:Hc; [|done].
  rewrite IH. unfold inked. rewrite Exists_cons. split; [by right|].
  intros [?|?]; [congruence | done].
Qed.

Lemma lstrip_by_nil_or_inked sp s :
  Py.lstrip_by sp s = [] ∨ inked sp (Py.lstrip_by sp s).
Proof.
  destruct (lstrip_by_head sp s) as [?|(c & r & -> & Hc)]; [by left|].
  right. by apply Exists_cons_hd.
Qed.

(** A stripped string is empty or holds a character that is not white
    space. *)
Lemma strip_by_nil_or_inked sp s :
  Py.strip_by sp s = [] ∨ inked sp (Py.strip_by sp s).
Proof.
  unfold Py.strip_by.
  destruct (lstrip_by_nil_or_inked sp (reverse (Py.lstrip_by sp s))) as [->|H].
  - by left.
  - right. by apply inked_reverse.
Qed.

Lemma strip_by_inked sp s : inked sp (Py.strip_by sp s) ↔ inked sp s.
Proof.
  unfold Py.strip_by.
  by rewrite inked_reverse, lstrip_by_inked, inked_reverse, lstrip_by_inked.
Qed.

(** Stripping leaves something exactly when there is a character that is
    not white space. *)
Lemma strip_not_nil s : Py.strip s ≠ [] ↔ inked Py.isspace s.
Proof.
  unfold Py.strip. rewrite <- (strip_by_inked Py.isspace s). split.
  - by destruct (strip_by_nil_or_inked Py.isspace s).
  - apply inked_not_nil.
Qed.

Lemma truthy_true s : Py.truthy s = true ↔ s ≠ [].
Proof. by destruct s. Qed.

Lemma truthy_false s : Py.truthy s = false ↔ s = [].
Proof. by destruct s. Qed.

(** ** The noise table *)

Lemma noise_lookup code markup :
  noise !! code = Some markup →
  (code, markup) ∈
    (λ kv : string * string,
       (list_ascii_of_string kv.1, list_ascii_of_string kv.2))
    <$> [("COUGH", " <i>(coughs)</i> ");
         ("EE-HESITATION", " <i>(hesitates)</i> ");
         ("LAUGHTER", " <i>(laughs)</i> ");
         ("LIP_SMACK", " <i>(smacks lips)</i> ");
         ("LOUD_BREATH", " <i>(breaths loudly)</i> ");
         ("NOISE", " <i>(noise)</i> ");
         ("SILENCE", " <i>(silence)</i> ");
         ("UH-HUH", " <i>(uh-huh)</i> ");
         ("UNINTELLIGIBLE", " <i>(unintelligible)</i> ")]%string.
Proof. apply elem_of_list_to_map_2. Qed.

(** Every markup of the table holds a character that is not white space. *)
Lemma noise_inked code markup :
  noise !! code = Some markup → inked Py.isspace markup.
Proof.
  intros H%noise_lookup. rewrite !fmap_cons, fmap_nil in H.
  repeat (apply elem_of_cons in H as [[= -> ->]|H];
          [apply Exists_cons_tl, Exists_cons_hd; reflexivity|]).
  by apply elem_of_nil in H.
Qed.

(** ** No cue without text *)

Lemma nil_or_inked_app s t :
  s = [] ∨ inked Py.isspace s → t = [] ∨ inked Py.isspace t →
  s ++ t = [] ∨ inked Py.isspace (s ++ t).
Proof.
  intros [->|Hs] [->|Ht]; rewrite ?app_nil_r; simpl; auto;
    right; apply inked_app; auto.
Qed.

Lemma strip_opt_inked x fragment :
  strip_opt x = Ok fragment → fragment = [] ∨ inked Py.isspace fragment.
Proof.
  destruct x as [s|]; [|done]. intros [= <-].
  apply strip_by_nil_or_inked.
Qed.

Lemma cue_visit_inked noise speaker cw a cw' :
  cue_visit noise speaker cw a = Ok cw' → texts_inked cw → texts_inked cw'.
Proof.
  unfold cue_visit. intros H [Ht Hc]. repeat case_decide.
  - by injection H as <-.
  - bind_inv H. destruct (Py.truthy (cw_text cw)) eqn:Htr.
    + bind_inv H. injection H as <-. split; simpl.
      * by eapply strip_opt_inked.
      * apply Forall_app. split; [done|]. apply Forall_singleton. simpl.
        apply truthy_true in Htr. by destruct Ht.
    + bind_inv H. injection H as <-. split; [|done]. simpl.
      apply nil_or_inked_app; [done|]. by eapply strip_opt_inked.
  - bind_inv H. bind_inv H. injection H as <-. split; [|done]. simpl.
    apply nil_or_inked_app; [|by eapply strip_opt_inked].
    destruct noise; [|by injection E as <-].
    bind_inv E. bind_inv E. injection E as <-.
    right. apply inked_app. right. apply (noise_inked a2).
    unfold getitem in E2. by destruct (noise !! a2); simplify_eq.
  - by injection H as <-.
Qed.

Lemma turn_cues_inked noise speakers turn tc :
  turn_cues noise speakers turn = Ok tc →
  Forall (λ c, inked Py.isspace (cue_text c)) tc.
Proof.
  unfold turn_cues. intros H. bind_inv H. bind_inv H.
  assert (texts_inked a0) as [Ht Hc].
  { eapply (foldM_invariant texts_inked), E0.
    - intros s x s' _ Hs Hf. by eapply cue_visit_inked.
    - split; simpl; auto. }
  destruct (Py.truthy (cw_text a0)) eqn:Htr.
  - bind_inv H. injection H as <-.
    apply Forall_app. split; [done|]. apply Forall_singleton. simpl.
    apply truthy_true in Htr. by destruct Ht.
  - by injection H as <-.
Qed.

Lemma document_cues_inked root noise cs :
  document_cues root noise = Ok cs →
  Forall (λ c, inked Py.isspace (cue_text c)) cs.
Proof.
  unfold document_cues. intros H. bind_inv H.
  destruct (find _ root); [|done].
  eapply (foldM_invariant (Forall (λ c, inked Py.isspace (cue_text c)))), H;
    [|done].
  intros cs0 turn cs1 _ Hcs0 Hstep. bind_inv Hstep. injection Hstep as <-.
  apply Forall_app. split; [done|]. by eapply turn_cues_inked.
Qed.

(** C6. Every cue [convert] emits has text: the lines of a conversion are
    the header and the lines of the cues of the document, and the
    accumulated text of each of these cues is not empty after trimming.  A
    cue is emitted only when the accumulated text is not empty, and what is
    appended to it is a stripped fragment or a markup of the noise table,
    each empty or with a character that is not white space. *)
Theorem C6_no_empty_cue root language add_speakers preserve_noise lines :
  convert_lines root language add_speakers preserve_noise = Ok lines →
  ∃ cs body,
    document_cues root preserve_noise = Ok cs
    ∧ cues_lines add_speakers cs = Ok body
    ∧ lines = header language ++ body
    ∧ Forall (λ c, cue_text c ≠ [] ∧ Py.strip (cue_text c) ≠ []) cs.
Proof.
  intros (cs & body & Hcs & Hbody & ->)%convert_lines_cues.
  exists cs, body. do 3 (split; [done|]).
  eapply Forall_impl; [by eapply document_cues_inked|].
  intros c Hc. split; [exact (inked_not_nil _ _ Hc) | by apply strip_not_nil].
Qed.

Lemma C6_no_empty_cue_witness :
  ∃ cs body,
    document_cues doc_hello true = Ok cs
    ∧ cues_lines true cs = Ok body
    ∧ ["WEBVTT" : str; "Language: en" : str; [];
       "00:00:02.000 --> 00:00:05.000" : str;
       "<v Alice>Hello there" : str; []]
      = header (Some ("en" : str)) ++ body
    ∧ Forall (λ c, cue_text c ≠ [] ∧ Py.strip (cue_text c) ≠ []) cs.
Proof.
  apply (C6_no_empty_cue doc_hello (Some ("en" : str)) true true).
  by vm_compute.
Defined.

(** ** Decimal rendering *)

Lemma digit_char_is_digit d :
  (0 ≤ d < 10)%Z → Py.is_digit (Py.digit_char d) = true.
Proof.
  intros Hd.
  assert (d = 0 ∨ d = 1 ∨ d = 2 ∨ d = 3 ∨ d = 4 ∨ d = 5 ∨ d = 6 ∨ d = 7
          ∨ d = 8 ∨ d = 9)%Z as H by lia.
  repeat destruct H as [->|H]; try subst d; reflexivity.
Qed.

Lemma digits_rev_digits fuel n :
  Forall (λ c, Py.is_digit c = true) (Py.digits_rev fuel n).
Proof.
  revert n. induction fuel as [|fuel IH]; intros n; simpl; [done|].
  constructor.
  - apply digit_char_is_digit, Z.mod_pos_bound. lia.
  - destruct (n <? 10)%Z; [done | apply IH].
Qed.

Lemma digits_rev_length_le fuel n k :
  (n < 10 ^ Z.of_nat (S k))%Z → length (Py.digits_rev fuel n) ≤ S k.
Proof.
  revert n k. induction fuel as [|fuel IH]; intros n k Hn; simpl; [lia|].
  destruct (n <? 10)%Z eqn:Hlt; simpl; [lia|].
  apply Z.ltb_ge in Hlt. destruct k as [|k].
  - simpl in Hn. lia.
  - apply le_n_S, IH.
    rewrite Nat2Z.inj_succ, Z.pow_succ_r in Hn by lia.
    apply Z.div_lt_upper_bound; lia.
Qed.

Lemma str_nonneg_digits n : Forall (λ c, Py.is_digit c = true) (Py.str_nonneg n).
Proof. apply Forall_reverse, digits_rev_digits. Qed.

Lemma str_nonneg_length_pos n : 1 ≤ length (Py.str_nonneg n).
Proof. unfold Py.str_nonneg. rewrite length_reverse. simpl. lia. Qed.

Lemma str_nonneg_length_le n k :
  (n < 10 ^ Z.of_nat (S k))%Z → length (Py.str_nonneg n) ≤ S k.
Proof.
  intros. unfold Py.str_nonneg. rewrite length_reverse.
  by apply digits_rev_length_le.
Qed.

Lemma str_nonneg_length_two n : (10 ≤ n)%Z → 2 ≤ length (Py.str_nonneg n).
Proof.
  intros Hn. unfold Py.str_nonneg. rewrite length_reverse.
  assert (3 ≤ Z.log2 n)%Z as Hl.
  { apply Z.log2_le_pow2; simpl; lia. }
  destruct (Z.to_nat (Z.log2 n)) as [|f] eqn:Hf; [lia|].
  simpl. destruct (n <? 10)%Z eqn:Hlt; [apply Z.ltb_lt in Hlt; lia|].
  simpl. lia.
Qed.

Lemma is_digit_chars_in cls s :
  Forall (λ c, Py.is_digit c = true) s → chars_in cls s.
Proof. intros H. eapply Forall_impl; [exact H|]. auto. Qed.

Lemma chars_in_app cls s t :
  chars_in cls s → chars_in cls t → chars_in cls (s ++ t).
Proof. intros. by apply Forall_app. Qed.

Lemma chars_in_weaken cls cls' s :
  cls ⊆ cls' → chars_in cls s → chars_in cls' s.
Proof.
  intros Hsub H. eapply Forall_impl; [exact H|].
  intros c [?|?]; [by left | right; auto].
Qed.

(** A string of characters of the class only. *)
Lemma chars_in_class cls s : s ⊆ cls → chars_in cls s.
Proof.
  intros Hsub. apply Forall_forall. intros c Hc. right. by apply Hsub.
Qed.

Lemma chars_in_take cls n s : chars_in cls s → chars_in cls (take n s).
Proof. apply Forall_take. Qed.

Lemma chars_in_replicate_zero cls n : chars_in cls (replicate n "0"%char).
Proof. apply Forall_replicate. by left. Qed.

Lemma str_int_chars n : chars_in "-" (Py.str_int n).
Proof.
  unfold Py.str_int. destruct (n <? 0)%Z.
  - apply chars_in_app; [by apply chars_in_class|].
    apply is_digit_chars_in, str_nonneg_digits.
  - apply is_digit_chars_in, str_nonneg_digits.
Qed.

Lemma str_int_length_pos n : 1 ≤ length (Py.str_int n).
Proof.
  unfold Py.str_int. pose proof (str_nonneg_length_pos n).
  pose proof (str_nonneg_length_pos (- n)).
  destruct (n <? 0)%Z; [rewrite length_app|]; simpl; lia.
Qed.

Lemma fmt_d_chars w n : chars_in "-" (Py.fmt_d w n).
Proof.
  unfold Py.fmt_d. destruct (n <? 0)%Z.
  - apply chars_in_app; [by apply chars_in_class|].
    apply chars_in_app; [apply chars_in_replicate_zero|].
    apply is_digit_chars_in, str_nonneg_digits.
  - apply chars_in_app; [apply chars_in_replicate_zero|].
    apply is_digit_chars_in, str_nonneg_digits.
Qed.

Lemma fmt_d_length_ge w n : w ≤ length (Py.fmt_d w n).
Proof.
  unfold Py.fmt_d. destruct (n <? 0)%Z;
    rewrite !length_app, ?length_replicate; simpl; lia.
Qed.

(** A non-negative number below [10^w] fills the width exactly, with
    digits. *)
Lemma fmt_d_digits w n :
  (0 ≤ n)%Z → Forall (λ c, Py.is_digit c = true) (Py.fmt_d w n).
Proof.
  intros Hn. unfold Py.fmt_d.
  destruct (n <? 0)%Z eqn:Hlt; [apply Z.ltb_lt in Hlt; lia|].
  apply Forall_app. split; [by apply Forall_replicate | apply str_nonneg_digits].
Qed.

Lemma fmt_d_length w n :
  (0 ≤ n < 10 ^ Z.of_nat (S w))%Z → length (Py.fmt_d (S w) n) = S w.
Proof.
  intros [Hn Hlt]. unfold Py.fmt_d.
  destruct (n <? 0)%Z eqn:Hneg; [apply Z.ltb_lt in Hneg; lia|].
  pose proof (str_nonneg_length_le n w Hlt).
  rewrite length_app, length_replicate. lia.
Qed.

Lemma str_int_digits n :
  (0 ≤ n)%Z → Forall (λ c, Py.is_digit c = true) (Py.str_int n).
Proof.
  intros Hn. unfold Py.str_int.
  destruct (n <? 0)%Z eqn:Hlt; [apply Z.ltb_lt in Hlt; lia|].
  apply str_nonneg_digits.
Qed.

Lemma str_int_length_one n : (0 ≤ n < 10)%Z → length (Py.str_int n) = 1.
Proof.
  intros [Hn Hlt]. unfold Py.str_int.
  destruct (n <? 0)%Z eqn:Hneg; [apply Z.ltb_lt in Hneg; lia|].
  pose proof (str_nonneg_length_pos n).
  pose proof (str_nonneg_length_le n 0). simpl in *. lia.
Qed.

Lemma str_int_length_two n : (10 ≤ n < 100)%Z → length (Py.str_int n) = 2.
Proof.
  intros [Hn Hlt]. unfold Py.str_int.
  destruct (n <? 0)%Z eqn:Hneg; [apply Z.ltb_lt in Hneg; lia|].
  pose proof (str_nonneg_length_two n Hn).
  pose proof (str_nonneg_length_le n 1). simpl in *. lia.
Qed.

(** ** The rendering of a duration *)

(** Unfolds the string literals of the goal into lists of characters. *)
Ltac literals := cbv beta iota delta [list_ascii_of_string].

Lemma chars_in_literal cls s :
  bool_decide (s ⊆ cls) = true → chars_in cls s.
Proof. intros H%bool_decide_eq_true. by apply chars_in_class. Qed.

Lemma not_elem_of_literal (c : ascii) (s : str) :
  bool_decide (c ∈ s) = false → c ∉ s.
Proof. apply bool_decide_eq_false. Qed.

Lemma chars_in_wider cls cls' s :
  bool_decide (cls ⊆ cls') = true → chars_in cls s → chars_in cls' s.
Proof. intros H%bool_decide_eq_true. by apply chars_in_weaken. Qed.

Lemma chars_in_not_elem cls s c :
  chars_in cls s → Py.is_digit c = false → c ∉ cls → c ∉ s.
Proof.
  intros Hs Hd Hc Hin. eapply Forall_forall in Hs; [|done].
  destruct Hs; congruence.
Qed.

(** [str(td)] is a part without point of seven characters or more,
    followed, when there are microseconds, by a point and their six
    digits. *)
Lemma to_str_split td :
  ∃ base,
    Datetime.to_str td
    = base ++ (if (Datetime.microseconds td =? 0)%Z then []
               else "." ++ Py.fmt_d 6 (Datetime.microseconds td))
    ∧ chars_in "-: days," base ∧ 7 ≤ length base.
Proof.
  unfold Datetime.to_str. cbv zeta.
  set (hh := Py.str_int _). set (mm := Py.fmt_d 2 _). set (ss := Py.fmt_d 2 _).
  assert (chars_in "-: days," (hh ++ ":" ++ mm ++ ":" ++ ss)) as Hc.
  { apply chars_in_app;
      [eapply chars_in_wider; [|apply str_int_chars]; by vm_compute|].
    apply chars_in_app; [apply chars_in_literal; by vm_compute|].
    apply chars_in_app;
      [eapply chars_in_wider; [|apply fmt_d_chars]; by vm_compute|].
    apply chars_in_app; [apply chars_in_literal; by vm_compute|].
    eapply chars_in_wider; [|apply fmt_d_chars]; by vm_compute. }
  assert (7 ≤ length (hh ++ ":" ++ mm ++ ":" ++ ss)) as Hl.
  { rewrite !length_app.
    pose proof (str_int_length_pos (Datetime.seconds td / 60 / 60)).
    pose proof (fmt_d_length_ge 2 (Datetime.seconds td / 60 mod 60)).
    pose proof (fmt_d_length_ge 2 (Datetime.seconds td mod 60)).
    fold hh mm ss in H, H0, H1. literals. simpl. lia. }
  destruct (Datetime.days td =? 0)%Z.
  - exists (hh ++ ":" ++ mm ++ ":" ++ ss).
    split; [|done]. by destruct (_ =? 0)%Z; rewrite ?app_nil_r.
  - eexists (Py.str_int (Datetime.days td) ++ " day" ++ _ ++ ", "
             ++ hh ++ ":" ++ mm ++ ":" ++ ss).
    split; [|split].
    + destruct (Datetime.microseconds td =? 0)%Z; rewrite ?app_nil_r;
        [reflexivity|]. by rewrite <- !app_assoc.
    + apply chars_in_app.
      { eapply chars_in_wider; [|apply str_int_chars]. by vm_compute. }
      apply chars_in_app; [apply chars_in_literal; by vm_compute|].
      apply chars_in_app.
      { destruct (_ =? 1)%Z; apply chars_in_literal; by vm_compute. }
      apply chars_in_app; [apply chars_in_literal; by vm_compute|done].
    + rewrite !length_app in *. lia.
Qed.

Lemma after_point_app s t :
  "."%char ∉ s → after_point (s ++ t) = after_point t.
Proof.
  induction s as [|c s IH]; simpl; [done|].
  intros Hc. apply not_elem_of_cons in Hc as [? ?].
  by rewrite decide_False, IH by done.
Qed.

Lemma after_point_length s : length (after_point s) ≤ length s - 1.
Proof.
  induction s as [|c s IH]; simpl; [lia|].
  destruct (decide (c = "."%char)); lia.
Qed.

Lemma contains_char_true c s : Py.contains_char c s = true ↔ c ∈ s.
Proof. apply bool_decide_eq_true. Qed.

Lemma contains_char_false c s : Py.contains_char c s = false ↔ c ∉ s.
Proof. apply bool_decide_eq_false. Qed.

(** The slice keeps at most three characters after the point, and so does
    the formatted time. *)
Lemma format_timedelta_fraction td : fraction_digits (format_timedelta td) ≤ 3.
Proof.
  unfold fraction_digits, format_timedelta. cbv zeta.
  destruct (to_str_split td) as (base & -> & Hc & Hl).
  set (f := if (_ =? 0)%Z then _ else _).
  assert ("."%char ∉ "0" ++ take 11 base) as Hno.
  { apply (chars_in_not_elem "-: days,");
      [|reflexivity|apply not_elem_of_literal; by vm_compute].
    apply chars_in_app; [|by apply chars_in_take].
    apply is_digit_chars_in. literals. by repeat constructor. }
  assert (8 ≤ length ("0" ++ take 11 base))
    by (rewrite length_app, length_take;
        change (length ("0" : str)) with 1; lia).
  rewrite take_app, (app_assoc "0").
  set (p := "0" ++ take 11 base) in *.
  set (x := take (11 - length base) f).
  assert (length x ≤ 11 - length base) by (unfold x; rewrite length_take; lia).
  destruct (Py.contains_char "." (p ++ x)) eqn:Hdot.
  - rewrite <- app_assoc, after_point_app by done.
    etrans; [apply after_point_length|].
    rewrite !length_app, length_replicate. lia.
  - apply contains_char_false in Hdot.
    by rewrite after_point_app.
Qed.

(** ** The formatted time *)

Lemma format_time_ok time out :
  format_time time = Ok out ↔
  ∃ x td, Py.float_of_str time = Ok x ∧ Datetime.of_seconds x = Ok td
          ∧ out = format_timedelta td.
Proof.
  unfold format_time. split.
  - intros H. bind_inv H. bind_inv H. injection H as <-. eauto.
  - intros (x & td & -> & Htd & ->). simpl. by rewrite Htd.
Qed.

Lemma format_time_fraction time out :
  format_time time = Ok out → fraction_digits out ≤ 3.
Proof.
  intros (x & td & _ & _ & ->)%format_time_ok.
  apply format_timedelta_fraction.
Qed.

(** C4. No input makes [format_time] return more than three fractional
    digits: the slice [[:11]] cuts the rendering of the duration, so a long
    fractional part is truncated; the padding only fills a short one. *)
Theorem C4_fraction_at_most_three time out :
  format_time time = Ok out → fraction_digits out ≤ 3.
Proof.
  intros (x & td & _ & _ & ->)%format_time_ok.
  unfold fraction_digits. apply format_timedelta_fraction.
Qed.

Lemma C4_fraction_at_most_three_witness :
  fraction_digits ("00:00:01.234" : str) ≤ 3.
Proof.
  apply (C4_fraction_at_most_three "1.23456789" "00:00:01.234").
  by vm_compute.
Defined.

(** C4, the claim as written fails: there is no input for which
    [format_time] returns more than three fractional digits. *)
Lemma C4_no_input_overflows :
  ¬ ∃ time out, format_time time = Ok out ∧ 3 < fraction_digits out.
Proof.
  intros (time & out & H%format_time_fraction & Hlt). lia.
Qed.

(** ** The shape of a formatted time *)

Lemma span_digits_app ds c r :
  Forall (λ d, Py.is_digit d = true) ds → Py.is_digit c = false →
  Py.span_digits (ds ++ c :: r) = (ds, c :: r).
Proof.
  intros Hds Hc. induction Hds as [|d ds Hd _ IH]; simpl.
  - by rewrite Hc.
  - by rewrite Hd, IH.
Qed.

Lemma digits_one s :
  length s = 1 → Forall (λ d, Py.is_digit d = true) s →
  ∃ a, s = [a] ∧ Py.is_digit a = true.
Proof.
  destruct s as [|a [|??]]; simpl; intros Hl Ha; try lia. exists a.
  rewrite Forall_singleton in Ha. auto.
Qed.

Lemma digits_two s :
  length s = 2 → Forall (λ d, Py.is_digit d = true) s →
  ∃ a b, s = [a; b] ∧ Py.is_digit a = true ∧ Py.is_digit b = true.
Proof.
  destruct s as [|a [|b [|??]]]; simpl; intros Hl H; try lia. exists a, b.
  rewrite Forall_cons, Forall_singleton in H. destruct H. auto.
Qed.

Lemma digits_six s :
  length s = 6 → Forall (λ d, Py.is_digit d = true) s →
  ∃ a b c r, s = a :: b :: c :: r ∧ length r = 3
             ∧ Py.is_digit a = true ∧ Py.is_digit b = true
             ∧ Py.is_digit c = true.
Proof.
  destruct s as [|a [|b [|c r]]]; simpl; intros Hl H; try lia.
  assert (length r = 3) as Hr by lia.
  exists a, b, c, r.
  rewrite !Forall_cons in H. destruct H as (? & ? & ? & _). auto 10.
Qed.

Lemma digit_not_point c : Py.is_digit c = true → "."%char ≠ c.
Proof. by intros H <-. Qed.

Lemma fmt_d_two n :
  (0 ≤ n < 100)%Z →
  ∃ a b, Py.fmt_d 2 n = [a; b] ∧ Py.is_digit a = true ∧ Py.is_digit b = true.
Proof.
  intros Hn. apply digits_two.
  - by apply (fmt_d_length 1).
  - apply fmt_d_digits. lia.
Qed.

Section shape.
Local Open Scope Z_scope.

Variable td : Datetime.timedelta.
Hypothesis Hdays : Datetime.days td = 0.
Hypothesis Hsecs : 0 ≤ Datetime.seconds td < 86400.
Hypothesis Hus : 0 ≤ Datetime.microseconds td < 1000000.

(** The rendering of a duration under a day: hours, minutes and seconds
    as digits, then the microseconds if there are any. *)
Lemma to_str_under_a_day :
  ∃ hh m1 m2 s1 s2,
    Datetime.to_str td
    = hh ++ [":"%char; m1; m2; ":"%char; s1; s2]
         ++ (if Datetime.microseconds td =? 0 then []
             else "."%char :: Py.fmt_d 6 (Datetime.microseconds td))
    ∧ Forall (λ d, Py.is_digit d = true) (hh ++ [m1; m2; s1; s2])
    ∧ (Datetime.seconds td < 36000 → length hh = 1%nat)
    ∧ (36000 ≤ Datetime.seconds td → length hh = 2%nat).
Proof.
  unfold Datetime.to_str. cbv zeta. rewrite Hdays. simpl (0 =? 0).
  cbv iota.
  destruct (fmt_d_two (Datetime.seconds td / 60 mod 60))
    as (m1 & m2 & -> & Hm1 & Hm2).
  { pose proof (Z.mod_pos_bound (Datetime.seconds td / 60) 60). lia. }
  destruct (fmt_d_two (Datetime.seconds td mod 60))
    as (s1 & s2 & -> & Hs1 & Hs2).
  { pose proof (Z.mod_pos_bound (Datetime.seconds td) 60). lia. }
  exists (Py.str_int (Datetime.seconds td / 60 / 60)), m1, m2, s1, s2.
  assert (0 ≤ Datetime.seconds td / 60 / 60 < 24) as Hh.
  { split; [apply Z.div_pos; [apply Z.div_pos|]; lia|].
    apply Z.div_lt_upper_bound; [lia|].
    apply Z.div_lt_upper_bound; lia. }
  split; [|split; [|split]].
  - destruct (_ =? 0); literals; simpl; by rewrite <- ?app_assoc.
  - apply Forall_app. split; [apply str_int_digits; lia|].
    by repeat constructor.
  - intros Hlt. apply str_int_length_one. split; [lia|].
    apply Z.div_lt_upper_bound; [lia|].
    apply Z.div_lt_upper_bound; lia.
  - intros Hge. apply str_int_length_two. split; [|lia].
    apply Z.div_le_lower_bound; [lia|].
    apply Z.div_le_lower_bound; lia.
Qed.

(** Under ten hours the formatted time has the twelve characters of
    [HH:MM:SS.mmm]. *)
Lemma format_timedelta_under_ten_hours :
  Datetime.seconds td < 36000 →
  is_timestamp (format_timedelta td) = true
  ∧ length (format_timedelta td) = 12%nat.
Proof.
  intros Hlt.
  destruct to_str_under_a_day
    as (hh & m1 & m2 & s1 & s2 & Hstr & Hd & Hone & _).
  apply Forall_app in Hd as [Hhh Hd].
  destruct (digits_one hh (Hone Hlt) Hhh) as (h & -> & Hh).
  rewrite !Forall_cons in Hd. destruct Hd as (Hm1 & Hm2 & Hs1 & Hs2 & _).
  unfold format_timedelta. cbv zeta. rewrite Hstr.
  destruct (Datetime.microseconds td =? 0) eqn:Hz.
  - replace (Py.contains_char _ _) with false.
    2:{ symmetry. apply contains_char_false. literals. simpl.
        rewrite !not_elem_of_cons.
        repeat split; try (by apply digit_not_point); try done.
        apply not_elem_of_nil. }
    literals. unfold is_timestamp. simpl.
    by rewrite Hh, Hm1, Hm2, Hs1, Hs2.
  - destruct (digits_six (Py.fmt_d 6 (Datetime.microseconds td)))
      as (f1 & f2 & f3 & r & -> & Hr & Hf1 & Hf2 & Hf3).
    { by apply (fmt_d_length 5). }
    { apply fmt_d_digits. lia. }
    replace (Py.contains_char _ _) with true.
    2:{ symmetry. apply contains_char_true. literals. simpl.
        rewrite !elem_of_cons. auto 20. }
    literals. unfold is_timestamp. simpl.
    by rewrite Hh, Hm1, Hm2, Hs1, Hs2, Hf1, Hf2, Hf3.
Qed.

(** From ten hours on, a whole number of seconds gives three digits of
    hours. *)
Lemma format_timedelta_whole_seconds :
  36000 ≤ Datetime.seconds td → Datetime.microseconds td = 0 →
  is_timestamp (format_timedelta td) = true
  ∧ length (format_timedelta td) = 13%nat.
Proof.
  intros Hge Hz.
  destruct to_str_under_a_day
    as (hh & m1 & m2 & s1 & s2 & Hstr & Hd & _ & Htwo).
  apply Forall_app in Hd as [Hhh Hd].
  destruct (digits_two hh (Htwo Hge) Hhh) as (h1 & h2 & -> & Hh1 & Hh2).
  rewrite !Forall_cons in Hd. destruct Hd as (Hm1 & Hm2 & Hs1 & Hs2 & _).
  unfold format_timedelta. cbv zeta. rewrite Hstr, Hz. simpl (0 =? 0).
  cbv iota.
  replace (Py.contains_char _ _) with false.
  2:{ symmetry. apply contains_char_false. literals. simpl.
      rewrite !not_elem_of_cons.
      repeat split; try (by apply digit_not_point); try done.
      apply not_elem_of_nil. }
  literals. unfold is_timestamp. simpl.
  by rewrite Hh1, Hh2, Hm1, Hm2, Hs1, Hs2.
Qed.

End shape.

(** A time code that stands for a number of microseconds is formatted as
    the duration of that many microseconds. *)
Lemma time_us_format_time time us :
  time_us time = Some us →
  format_time time
  = let! td := Datetime.of_microseconds us in Ok (format_timedelta td).
Proof.
  unfold time_us, format_time.
  destruct (Py.float_of_str time) as [[m e| |]|]; try done.
  by intros [= <-].
Qed.

Lemma of_microseconds_under_a_day us :
  (0 ≤ us < 86400000000)%Z →
  Datetime.of_microseconds us
  = Ok (Datetime.Timedelta 0 (us / 1000000) (us mod 1000000)).
Proof.
  intros Hus. unfold Datetime.of_microseconds. cbv zeta.
  assert (0 ≤ us / 1000000 < 86400)%Z as Hs.
  { split; [apply Z.div_pos; lia | apply Z.div_lt_upper_bound; lia]. }
  rewrite (Z.div_small (us / 1000000) 86400) by done.
  by rewrite Z.mod_small.
Qed.

(** ** Failure of the time formatter *)

(** A loop that ends without exception has run its body, without
    exception, on every element. *)
Lemma foldM_ok_each {A S} (f : S → A → result S) l s s' x :
  foldM f l s = Ok s' → x ∈ l → ∃ s1 s2, f s1 x = Ok s2.
Proof.
  revert s. induction l as [|y l IH]; intros s H Hx; [by inversion Hx|].
  simpl in H. bind_inv H. apply elem_of_cons in Hx as [->|Hx]; eauto.
Qed.

Lemma format_time_fails time :
  fails (format_time time) ↔
  time_us time = None
  ∨ ∃ us, time_us time = Some us
          ∧ (999999999 < Z.abs (us / 1000000 / 86400))%Z.
Proof.
  unfold time_us, format_time.
  destruct (Py.float_of_str time) as [[m e|neg|]|err]; simpl.
  - unfold Datetime.of_microseconds. cbv zeta.
    destruct (Z.leb_spec (Z.abs (Datetime.microseconds_of m e / 1000000 / 86400))
                999999999) as [Hle|Hgt]; simpl; split.
    + by intros [? [=]].
    + intros [[=]|(us & [= <-] & ?)]. lia.
    + intros _. right. eauto.
    + intros _. by eexists.
  - split; [auto | intros _; by eexists].
  - split; [auto | intros _; by eexists].
  - split; [auto | intros _; by eexists].
Qed.

Lemma generate_timestamp_ok t0 t1 stamp :
  generate_timestamp t0 t1 = Ok stamp ↔
  ∃ s e, format_time t0 = Ok s ∧ format_time t1 = Ok e
         ∧ stamp = s ++ " --> " ++ e.
Proof.
  unfold generate_timestamp. split.
  - intros H. bind_inv H. bind_inv H. injection H as <-. eauto.
  - intros (s & e & -> & -> & ->). done.
Qed.

(** The lines of a list of cues exist only if the times of each cue can be
    formatted. *)
Lemma cues_lines_times spk cs body c :
  cues_lines spk cs = Ok body → c ∈ cs →
  is_ok (format_time (cue_start c)) ∧ is_ok (format_time (cue_end c)).
Proof.
  intros H Hc.
  destruct (foldM_ok_each _ _ _ _ _ H Hc) as (ls & ls' & Hstep).
  bind_inv Hstep. unfold cue_lines in E. bind_inv E.
  apply generate_timestamp_ok in E0 as (s & e & Hs & He & _).
  split; eexists; eauto.
Qed.

Lemma convert_ok root language spk noise out :
  convert root language spk noise = Ok out ↔
  ∃ lines, convert_lines root language spk noise = Ok lines
           ∧ out = Py.join ["010"%char] lines.
Proof.
  unfold convert. split.
  - intros H. bind_inv H. injection H as <-. eauto.
  - by intros (lines & -> & ->).
Qed.

Lemma convert_fails root language spk noise :
  fails (convert root language spk noise)
  ↔ fails (convert_lines root language spk noise).
Proof.
  unfold convert. destruct (convert_lines _ _ _ _); simpl;
    split; intros [? [=]]; by eexists.
Qed.

(** C5. [format_time] fails exactly when the time code does not stand for a
    finite number ([float] rejects it, or gives an infinity or a NaN) or the
    duration is out of the range of [timedelta]; the sign is not looked at,
    so a negative time code within the range is formatted.  A cue whose
    time cannot be formatted makes the whole conversion fail. *)
Theorem C5_format_time_failure :
  (∀ time, fails (format_time time) ↔
     time_us time = None
     ∨ ∃ us, time_us time = Some us
             ∧ (999999999 < Z.abs (us / 1000000 / 86400))%Z)
  ∧ (∀ time us, time_us time = Some us →
       (-86399999913600000000 ≤ us < 0)%Z → is_ok (format_time time))
  ∧ (∀ root language spk noise cs c,
       document_cues root noise = Ok cs → c ∈ cs →
       fails (format_time (cue_start c)) ∨ fails (format_time (cue_end c)) →
       fails (convert root language spk noise)).
Proof.
  split; [exact format_time_fails | split].
  - intros time us Ht Hus.
    destruct (ok_or_fails (format_time time)) as [?|Hf]; [done|].
    apply format_time_fails in Hf as [Hn|(us' & Hs & Hgt)]; [congruence|].
    assert (us' = us) as -> by congruence.
    assert (-999999999 ≤ us / 1000000 / 86400 ≤ 0)%Z; [|lia].
    split.
    + apply Z.div_le_lower_bound; [lia|].
      apply Z.div_le_lower_bound; lia.
    + assert (us / 1000000 / 86400 < 1)%Z; [|lia].
      apply Z.div_lt_upper_bound; [lia|].
      apply Z.div_lt_upper_bound; lia.
  - intros root language spk noise cs c Hcs Hc Hf.
    apply convert_fails, not_ok_fails.
    intros [lines (cs' & body & Hcs' & Hbody & _)%convert_lines_cues].
    assert (cs' = cs) as -> by congruence.
    destruct (cues_lines_times _ _ _ _ Hbody Hc) as [Hs He].
    destruct Hf as [Hf|Hf]; apply not_ok_fails in Hf; auto.
Qed.

(** C5, the claim as written fails: the negative time code [-1] is
    formatted, as the last second of the day before. *)
Lemma C5_negative_is_formatted :
  format_time "-1" = Ok ("0-1 day, 23:.000" : str).
Proof. by vm_compute. Qed.

(** ** The scenario of the specification *)

(** C1. For the document of the scenario the converter gives one cue, from
    the time 2 of the [Sync] to the end 5 of the turn: the text follows the
    [Sync], whose time has replaced the start of the turn when the cue is
    written. *)
Theorem C1_hello_scenario :
  convert_lines doc_hello (Some []) false false
  = Ok ["WEBVTT" : str; []; "00:00:02.000 --> 00:00:05.000" : str;
        "Hello there" : str; []]
  ∧ convert_lines doc_hello None false false
    = convert_lines doc_hello (Some []) false false
  ∧ convert doc_hello (Some []) false false
    = Ok (Py.join ["010"%char]
            ["WEBVTT" : str; []; "00:00:02.000 --> 00:00:05.000" : str;
             "Hello there" : str; []])
  ∧ document_cues doc_hello false
    = Ok [mkCue "2" "5" "Alice" "Hello there"].
Proof. by vm_compute. Qed.

(** C1, the claim as written fails: the lines are not those of a cue that
    starts at the start 0 of the turn. *)
Lemma C1_cue_starts_at_sync :
  convert_lines doc_hello (Some []) false false
  ≠ Ok ["WEBVTT" : str; []; "00:00:00.000 --> 00:00:05.000" : str;
        "Hello there" : str; []].
Proof. by vm_compute. Qed.

(** ** The order of the cues *)

Lemma monotone_cons le a l :
  monotone le (a :: l) → Forall (le a) (a :: l) ∧ monotone le l.
Proof.
  intros H. split.
  - apply Forall_lookup. intros i x Hx. apply (H 0 i); [lia|done|done].
  - intros i j x y Hij Hi Hj. apply (H (S i) (S j)); [lia|done|done].
Qed.

Lemma monotone_ordered le l : monotone le l ↔ ordered le l.
Proof.
  split.
  - induction l as [|a l IH]; [done|].
    intros [? ?]%monotone_cons. split; auto.
  - induction l as [|a l IH]; intros H i j x y Hij Hi Hj.
    { by rewrite lookup_nil in Hi. }
    destruct H as [Ha Hl]. destruct i as [|i].
    + injection Hi as <-. by eapply Forall_lookup_1 in Ha.
    + destruct j as [|j]; [lia|]. eapply (IH Hl i j); [lia|done|done].
Qed.

Lemma ordered_sublist le l1 l2 :
  l1 `sublist_of` l2 → ordered le l2 → ordered le l1.
Proof.
  induction 1 as [|x l1 l2 Hsub IH|x l1 l2 Hsub IH]; [done| |].
  - intros [Hx Hl]. split; [|auto].
    rewrite Forall_cons in Hx. destruct Hx as [? Hx].
    apply Forall_cons. split; [done|].
    apply Forall_forall. intros y Hy.
    eapply Forall_forall in Hx; [done|]. by eapply elem_of_sublist.
  - intros [_ Hl]. auto.
Qed.

Lemma twice_app l1 l2 : twice (l1 ++ l2) = twice l1 ++ twice l2.
Proof. apply flat_map_app. Qed.

Lemma ordered_twice le l : ordered le l → ordered le (twice l).
Proof.
  induction l as [|a l IH]; [done|]. intros [Ha Hl]. simpl.
  rewrite Forall_cons in Ha. destruct Ha as [Haa Ha].
  assert (Forall (le a) (twice l)) as Ht.
  { apply Forall_forall. intros y Hy.
    apply list_elem_of_In, in_flat_map in Hy as (t & Ht%list_elem_of_In & Hy).
    eapply Forall_forall in Ha; [|done].
    destruct Hy as [<-|[<-|[]]]; done. }
  repeat split; auto.
Qed.

Lemma cue_times_app cs1 cs2 :
  cue_times (cs1 ++ cs2) = cue_times cs1 ++ cue_times cs2.
Proof. apply flat_map_app. Qed.

(** In an ordered list of cue times each cue ends after its start, and
    before the start of the next. *)
Lemma ordered_cue_times le cs :
  ordered le (cue_times cs) →
  (∀ c, c ∈ cs → le (cue_start c) (cue_end c))
  ∧ (∀ i c1 c2, cs !! i = Some c1 → cs !! S i = Some c2 →
       le (cue_end c1) (cue_start c2)).
Proof.
  induction cs as [|c cs IH]; simpl.
  { intros _. split; [by intros ? ?%elem_of_nil | by intros ???].  }
  intros (Hs & He & Hcs). destruct (IH Hcs) as [IH1 IH2]. split.
  - intros c' [->|?]%elem_of_cons; [|auto].
    rewrite !Forall_cons in Hs. tauto.
  - intros [|i] c1 c2 H1 H2; [|by eapply IH2].
    injection H1 as <-. destruct cs as [|c' cs]; [done|].
    injection H2 as <-. simpl in He. rewrite !Forall_cons in He. tauto.
Qed.

Lemma sync_times_app l1 l2 :
  sync_times (l1 ++ l2) = sync_times l1 ++ sync_times l2.
Proof. apply omap_app. Qed.

(** One step of the walk keeps the cue times among the times read. *)
Lemma cue_visit_chained noise speaker cw a cw' ts :
  cue_visit noise speaker cw a = Ok cw' → chained cw ts →
  chained cw' (ts ++ sync_times [a]).
Proof.
  unfold cue_visit, chained. intros H Hch.
  assert (cue_times (cues cw) `sublist_of` twice ts) as Hcs.
  { etrans; [|exact Hch]. by apply sublist_inserts_r. }
  unfold sync_times. simpl omap.
  destruct (decide (tag a = "Turn")) as [HT|HT].
  { injection H as <-. rewrite decide_False by (by rewrite HT).
    by rewrite app_nil_r. }
  destruct (decide (tag a = "Sync")) as [HS|HS].
  { bind_inv H. unfold getitem in E.
    destruct (attrib a !! _) as [t|] eqn:Ht; [|done]. injection E as <-.
    rewrite twice_app. simpl.
    destruct (Py.truthy (cw_text cw)); bind_inv H; injection H as <-; simpl.
    - rewrite cue_times_app. simpl. rewrite <- app_assoc. simpl.
      rewrite (assoc_L (++) _ [cw_start cw] [t; t]).
      by apply sublist_app.
    - apply sublist_app; [done|]. by apply sublist_cons, sublist_skip. }
  rewrite app_nil_r. destruct (decide (tag a = "Event")).
  - bind_inv H. bind_inv H. by injection H as <-.
  - by injection H as <-.
Qed.

Lemma foldM_cue_visit_chained noise speaker l cw cw' ts :
  foldM (cue_visit noise speaker) l cw = Ok cw' → chained cw ts →
  chained cw' (ts ++ sync_times l).
Proof.
  revert cw ts. induction l as [|a l IH]; intros cw ts H Hch; simpl in H.
  - injection H as <-. unfold sync_times. simpl. by rewrite app_nil_r.
  - bind_inv H. change (a :: l) with ([a] ++ l).
    rewrite sync_times_app, app_assoc. eapply IH; [done|].
    by eapply cue_visit_chained.
Qed.

(** The times of the cues of a turn are among the times of the turn. *)
Lemma turn_cues_times noise speakers turn tc :
  turn_cues noise speakers turn = Ok tc →
  cue_times tc `sublist_of` twice (turn_times turn).
Proof.
  unfold turn_cues, turn_times. intros H.
  apply bind_ok in H as (t & E & H). unfold getitem in E.
  destruct (attrib turn !! _) as [t0|]; [|done].
  injection E as <-. apply bind_ok in H as (w & E & H).
  apply (foldM_cue_visit_chained _ _ _ _ _ [t0]) in E.
  2:{ unfold chained. simpl. by apply sublist_skip, sublist_cons. }
  unfold chained in E. fold (sync_times (iter None turn)).
  simpl (option_list (Some t0)). rewrite (assoc_L (++) [t0]), twice_app.
  destruct (Py.truthy (cw_text w)).
  - apply bind_ok in H as (t & E1 & H). unfold getitem in E1.
    destruct (attrib turn !! _) as [t1|]; [|done].
    injection E1 as <-. injection H as <-.
    rewrite cue_times_app.
    change (cue_times [_]) with ([cw_start w] ++ [t1]).
    rewrite (assoc_L (++) _ [cw_start w] [t1]).
    apply sublist_app; [done|]. simpl. by apply sublist_skip, sublist_cons.
  - injection H as <-.
    apply sublist_inserts_r. etrans; [|exact E]. by apply sublist_inserts_r.
Qed.

Lemma document_cues_times root noise cs :
  document_cues root noise = Ok cs →
  cue_times cs `sublist_of` twice (timeline root).
Proof.
  unfold document_cues, timeline. intros H. bind_inv H.
  destruct (find _ root); [|done]. clear E.
  revert cs H. induction (visited_turns root) as [|turn l IH] using rev_ind;
    intros cs H.
  - by injection H as <-.
  - rewrite foldM_snoc in H. bind_inv H. bind_inv H. injection H as <-.
    rewrite cue_times_app, flat_map_app, twice_app. simpl.
    rewrite app_nil_r. apply sublist_app; [by apply IH|].
    by eapply turn_cues_times.
Qed.

Lemma contiguous_snoc cs c :
  contiguous cs →
  (∀ c0, last cs = Some c0 → cue_end c0 = cue_start c) →
  contiguous (cs ++ [c]).
Proof.
  intros Hcs Hlast i c1 c2 H1 H2.
  destruct (decide (S i < length cs)) as [Hlt|Hge].
  - rewrite lookup_app_l in H1 by lia. rewrite lookup_app_l in H2 by lia.
    by eapply Hcs.
  - apply lookup_lt_Some in H2 as Hi. rewrite length_app in Hi. simpl in Hi.
    assert (S i = length cs) as Hi' by lia.
    rewrite lookup_app_l in H1 by lia.
    rewrite lookup_app_r, Hi', Nat.sub_diag in H2 by lia.
    injection H2 as <-. apply Hlast.
    rewrite last_lookup, <- Hi'. done.
Qed.

(** One step of the walk keeps the cues contiguous, when a [Sync] carries
    text. *)
Lemma cue_visit_linked noise speaker cw a cw' :
  cue_visit noise speaker cw a = Ok cw' →
  (tag a = "Sync" → ∃ t, tail a = Some t ∧ Py.strip t ≠ []) →
  linked cw → linked cw'.
Proof.
  unfold cue_visit. intros H Htail [Hcs Hlast].
  destruct (decide (tag a = "Turn")); [by injection H as <-|].
  destruct (decide (tag a = "Sync")) as [HS|HS].
  { destruct (Htail HS) as (tl & Htl & Hne). rewrite Htl in H. simpl in H.
    apply bind_ok in H as (t & _ & H).
    destruct (Py.truthy (cw_text cw)) eqn:Htr; injection H as <-.
    - split; simpl.
      + apply contiguous_snoc; [done|]. intros c0 Hc0. by apply Hlast.
      + intros c. rewrite last_snoc. by intros [= <-].
    - split; [done|]. simpl. intros c Hc.
      apply Hlast in Hc as [_ Hc]. by apply truthy_false in Htr. }
  destruct (decide (tag a = "Event")); [|by injection H as <-].
  apply bind_ok in H as (text & Htext & H).
  apply bind_ok in H as (fragment & _ & H). injection H as <-.
  split; [done|]. simpl. intros c Hc. apply Hlast in Hc as [-> Hc].
  split; [done|]. intros [Hnil _]%app_eq_nil.
  destruct noise.
  - apply bind_ok in Htext as (? & _ & Htext).
    apply bind_ok in Htext as (? & _ & Htext). injection Htext as <-.
    by apply app_eq_nil in Hnil as [? _].
  - injection Htext as <-. done.
Qed.

(** The cues of a turn whose [Sync] elements all carry text are
    contiguous. *)
Lemma turn_cues_contiguous noise speakers turn tc :
  syncs_carry_text (iter None turn) →
  turn_cues noise speakers turn = Ok tc → contiguous tc.
Proof.
  unfold turn_cues. intros Hsync H.
  apply bind_ok in H as (t0 & _ & H). apply bind_ok in H as (w & E & H).
  assert (linked w) as [Hcs Hlast].
  { eapply (foldM_invariant linked), E.
    - intros s x s' Hx Hs Hstep. eapply cue_visit_linked; [done| |done].
      intros Htag. by apply Hsync.
    - split; [by intros ???|by intros ?]. }
  destruct (Py.truthy (cw_text w)).
  - apply bind_ok in H as (t1 & _ & H). injection H as <-.
    apply contiguous_snoc; [done|]. intros c0 Hc0. by apply Hlast.
  - by injection H as <-.
Qed.

(** ** Elements and their rewriting *)

(** Induction on an element, with the property for its children. *)
Lemma Element_ind' (P : Element → Prop) :
  (∀ tg at' tx tl cs, Forall P cs → P (mkElement tg at' tx tl cs)) →
  ∀ e, P e.
Proof.
  intros H. fix IH 1. intros [tg at' tx tl cs]. apply H.
  induction cs as [|c cs IHcs]; constructor; [apply IH | apply IHcs].
Qed.

Lemma relabel_tag g e : tag (relabel g e) = tag e.
Proof. by destruct e. Qed.

Lemma relabel_attrib g e :
  attrib (relabel g e) = (g (tag e) (attrib e) (tail e)).1.
Proof. by destruct e. Qed.

Lemma relabel_tail g e :
  tail (relabel g e) = (g (tag e) (attrib e) (tail e)).2.
Proof. by destruct e. Qed.

Lemma relabel_children g e :
  children (relabel g e) = map (relabel g) (children e).
Proof. by destruct e. Qed.

Lemma flat_map_map {A B C} (f : A → B) (g : B → list C) l :
  flat_map g (map f l) = flat_map (λ x, g (f x)) l.
Proof. induction l as [|x l IH]; simpl; [done | by rewrite IH]. Qed.

Lemma map_flat_map {A B C} (f : B → C) (g : A → list B) l :
  map f (flat_map g l) = flat_map (λ x, map f (g x)) l.
Proof.
  induction l as [|x l IH]; simpl; [done | by rewrite map_app, IH].
Qed.

Lemma flat_map_ext_Forall {A B} (f g : A → list B) l :
  Forall (λ x, f x = g x) l → flat_map f l = flat_map g l.
Proof. induction 1 as [|x l Hx _ IH]; simpl; [done | by rewrite Hx, IH]. Qed.

(** Rewriting keeps the tags, so [iter] finds the rewritten elements. *)
Lemma iter_relabel g t e : iter t (relabel g e) = map (relabel g) (iter t e).
Proof.
  induction e as [tg at' tx tl cs IH] using Element_ind'. simpl.
  rewrite map_app, flat_map_map, map_flat_map.
  f_equal; [by destruct (decide _)|]. by apply flat_map_ext_Forall.
Qed.

Lemma find_relabel g t e : find t (relabel g e) = relabel g <$> find t e.
Proof.
  unfold find. rewrite relabel_children.
  induction (children e) as [|c cs IH]; [done|].
  simpl. rewrite !filter_cons, relabel_tag.
  destruct (decide (tag c = t)); [done | apply IH].
Qed.

Lemma visited_turns_relabel g root :
  visited_turns (relabel g root) = map (relabel g) (visited_turns root).
Proof.
  unfold visited_turns. rewrite find_relabel.
  destruct (find _ root) as [episode|]; [|done]. simpl.
  rewrite iter_relabel, flat_map_map, map_flat_map.
  apply flat_map_ext_Forall, Forall_forall. intros s _. apply iter_relabel.
Qed.

Lemma annotations_relabel g root :
  annotations (relabel g root) = map (relabel g) (annotations root).
Proof.
  unfold annotations.
  rewrite visited_turns_relabel, flat_map_map, map_flat_map.
  apply flat_map_ext_Forall, Forall_forall. intros s _. apply iter_relabel.
Qed.

Lemma foldM_map {A B S} (f : S → B → result S) (h : A → B) l s :
  foldM f (map h l) s = foldM (λ s x, f s (h x)) l s.
Proof.
  revert s. induction l as [|x l IH]; intros s; simpl; [done|].
  destruct (f s (h x)); simpl; [apply IH | done].
Qed.

(** An element reached by [iter] with a tag has this tag. *)
Lemma iter_tag t e x : x ∈ iter (Some t) e → tag x = t.
Proof.
  induction e as [tg at' tx tl cs IH] using Element_ind'. simpl.
  intros [Hx|Hx]%elem_of_app.
  - destruct (decide _) as [[?|[= ->]]|]; [done| |by apply elem_of_nil in Hx].
    by apply list_elem_of_singleton in Hx as ->.
  - apply list_elem_of_In, in_flat_map in Hx as (c & Hc%list_elem_of_In & Hx).
    eapply Forall_forall in IH; [|done]. apply IH. by apply list_elem_of_In.
Qed.

Lemma visited_turns_tag root turn :
  turn ∈ visited_turns root → tag turn = "Turn".
Proof.
  unfold visited_turns. destruct (find _ root); [|by intros ?%elem_of_nil].
  intros (s & _ & Hx)%list_elem_of_In%in_flat_map.
  by eapply iter_tag, list_elem_of_In.
Qed.

(** ** The speakers *)

(** A rewriting that leaves the attributes of the [Speaker] elements alone
    leaves the dictionary of the speakers alone. *)
Lemma read_speakers_relabel g root :
  (∀ at' tl, (g ("Speaker" : str) at' tl).1 = at') →
  read_speakers (relabel g root) = read_speakers root.
Proof.
  intros Hg. unfold read_speakers. rewrite find_relabel.
  destruct (find _ root) as [sp|]; [|done]. simpl.
  rewrite iter_relabel, foldM_map. apply foldM_ext.
  intros d x Hx. apply iter_tag in Hx.
  by rewrite relabel_attrib, Hx, Hg.
Qed.

(** ** Failure at an annotation *)

Lemma elem_of_annotations root a :
  a ∈ annotations root ↔
  ∃ turn, turn ∈ visited_turns root ∧ a ∈ iter None turn.
Proof.
  unfold annotations. rewrite list_elem_of_In, in_flat_map.
  by setoid_rewrite list_elem_of_In.
Qed.

(** A turn with an annotation on which the loop body raises, raises. *)
Lemma visit_turn_fails spk noise speakers turn a :
  a ∈ iter None turn → (∀ p w, fails (visit spk noise p w a)) →
  ∀ ls, fails (visit_turn spk noise speakers ls turn).
Proof.
  intros Ha Hf ls. unfold visit_turn. apply fails_bind_k. intros t0.
  apply fails_bind. by eapply foldM_fails.
Qed.

(** So does the conversion of a document with such an annotation. *)
Lemma convert_lines_fails_at root language spk noise a :
  a ∈ annotations root → (∀ p w, fails (visit spk noise p w a)) →
  fails (convert_lines root language spk noise).
Proof.
  intros (turn & Hturn & Ha)%elem_of_annotations Hf.
  rewrite convert_lines_unfold. apply fails_bind_k. intros speakers.
  destruct (find _ root); [|by eexists].
  eapply foldM_fails; [done|]. by eapply visit_turn_fails.
Qed.

(** ** Unknown event codes *)

Lemma visit_unknown_event spk p w a code :
  tag a = "Event" → attrib a !! ("desc" : str) = Some code →
  noise !! code = None →
  visit spk true p w a = Raise (KeyError code).
Proof.
  intros Htag Hdesc Hcode. unfold visit.
  rewrite decide_False by (by rewrite Htag).
  rewrite decide_False by (by rewrite Htag).
  rewrite decide_True by done.
  unfold getitem. rewrite Hdesc. simpl. by rewrite Hcode.
Qed.

(** Without noise preservation the loop body does not read the code of an
    event. *)
Lemma visit_recode_events f spk p w a :
  visit spk false p w (recode_events f a) = visit spk false p w a.
Proof.
  unfold recode_events, visit.
  rewrite relabel_tag, relabel_attrib, relabel_tail. simpl.
  destruct (decide (tag a = "Turn")); [done|].
  destruct (decide (tag a = "Sync")) as [HS|]; [|done].
  rewrite (decide_False (P := tag a = "Event")); [done|]. by rewrite HS.
Qed.

Lemma visit_turn_recode_events f spk speakers ls turn :
  tag turn = "Turn" →
  visit_turn spk false speakers ls (recode_events f turn)
  = visit_turn spk false speakers ls turn.
Proof.
  intros Htag. unfold visit_turn.
  assert (attrib (recode_events f turn) = attrib turn) as ->.
  { unfold recode_events. rewrite relabel_attrib. simpl.
    rewrite decide_False; [done|]. by rewrite Htag. }
  destruct (getitem (attrib turn) _) as [t0|]; simpl; [|done].
  unfold recode_events at 1. rewrite iter_relabel, foldM_map.
  fold (recode_events f).
  erewrite foldM_ext; [done|]. intros w a _. apply visit_recode_events.
Qed.

Lemma convert_lines_recode_events f root language spk :
  convert_lines (recode_events f root) language spk false
  = convert_lines root language spk false.
Proof.
  rewrite !convert_lines_unfold. unfold recode_events.
  rewrite read_speakers_relabel.
  2:{ intros at' tl. simpl. first [done | by destruct (decide _)]. }
  destruct (read_speakers root) as [speakers|]; simpl; [|done].
  rewrite find_relabel. destruct (find _ root) as [episode|] eqn:Hep;
    simpl; [|done].
  rewrite visited_turns_relabel, foldM_map.
  apply foldM_ext. intros ls turn Hturn.
  apply (visit_turn_recode_events f). by eapply visited_turns_tag.
Qed.

(** C7. With noise preservation the loop body raises [KeyError] on an
    [Event] whose code is not a key of the table, so the conversion of a
    document in which the walk reaches such an event fails.  Without noise
    preservation the codes are not read: the result is the same whatever
    the codes of the events are. *)
Theorem C7_unknown_event_code root language add_speakers a :
  a ∈ annotations root → unknown_event a →
  (∃ code, attrib a !! ("desc" : str) = Some code
           ∧ ∀ prefix w,
               visit add_speakers true prefix w a = Raise (KeyError code))
  ∧ fails (convert root language add_speakers true)
  ∧ (∀ f, convert (recode_events f root) language add_speakers false
          = convert root language add_speakers false).
Proof.
  intros Ha (Htag & code & Hdesc & Hcode). split; [|split].
  - exists code. split; [done|]. intros p w. by apply visit_unknown_event.
  - apply convert_fails. eapply convert_lines_fails_at; [done|].
    intros p w. exists (KeyError code). by apply visit_unknown_event.
  - intros f. unfold convert. by rewrite convert_lines_recode_events.
Qed.

Lemma C7_unknown_event_code_witness :
  (∃ code, attrib (element "Event" [("desc", "SNEEZE")] (Some "two") [])
             !! ("desc" : str) = Some code
           ∧ ∀ prefix w,
               visit true true prefix w
                 (element "Event" [("desc", "SNEEZE")] (Some "two") [])
               = Raise (KeyError code))
  ∧ fails (convert doc_unknown_event None true true)
  ∧ (∀ f, convert (recode_events f doc_unknown_event) None true false
          = convert doc_unknown_event None true false).
Proof.
  apply (C7_unknown_event_code doc_unknown_event None true
           (element "Event" [("desc", "SNEEZE")] (Some "two") [])).
  - apply (list_elem_of_lookup_2 _ 2). by vm_compute.
  - split; [by vm_compute|]. exists ("SNEEZE" : str).
    split; by vm_compute.
Defined.

(** ** Absent tails *)


(** A loop whose body, on the elements that are not [bad], does what the
    body [f'] of a loop that ends does, and raises [e] on the [bad] ones:
    it ends in the same state, or raises [e] when there is a [bad]
    element. *)
Lemma foldM_first_failure {A S} (f f' : S → A → result S) (bad : A → Prop)
    e l s s' :
  (∀ s x s', f' s x = Ok s' →
     (¬ bad x ∧ f s x = Ok s') ∨ (bad x ∧ f s x = Raise e)) →
  foldM f' l s = Ok s' →
  (Forall (λ x, ¬ bad x) l ∧ foldM f l s = Ok s')
  ∨ (Exists bad l ∧ foldM f l s = Raise e).
Proof.
  intros Hstep. revert s. induction l as [|x l IH]; intros s H; simpl in *.
  - left. by split.
  - apply bind_ok in H as (s1 & Hx & H).
    destruct (Hstep _ _ _ Hx) as [[Hgood ->]|[Hbad ->]]; simpl.
    + destruct (IH _ H) as [[Hl ->]|[Hl ->]].
      * left. split; [by constructor | done].
      * right. split; [by apply Exists_cons_tl | done].
    + right. split; [by apply Exists_cons_hd | done].
Qed.

Lemma visit_fill_tails spk noise p w a w' :
  visit spk noise p w (fill_tails a) = Ok w' →
  (¬ tailless a ∧ visit spk noise p w a = Ok w')
  ∨ (tailless a ∧ visit spk noise p w a = Raise AttributeError).
Proof.
  unfold fill_tails, visit, tailless.
  rewrite relabel_tag, relabel_attrib, relabel_tail. simpl.
  destruct (decide (tag a = "Turn")) as [HT|_].
  { intros ?. left. split; [|done]. rewrite HT. by intros [[?|?] _]. }
  destruct (decide (tag a = "Sync")) as [HS|HS].
  { intros H. apply bind_ok in H as (t & -> & H). simpl.
    apply bind_ok in H as ([lines text] & -> & H). simpl.
    destruct (tail a) as [tl|]; simpl in *.
    - left. split; [by intros [_ ?] | done].
    - right. split; [auto | done]. }
  destruct (decide (tag a = "Event")) as [HE|HE].
  { intros H. apply bind_ok in H as (text & -> & H). simpl.
    destruct (tail a) as [tl|]; simpl in *.
    - left. split; [by intros [_ ?] | done].
    - right. split; [auto | done]. }
  intros ?. left. split; [|done]. by intros [[?|?] _].
Qed.

Lemma visit_turn_fill_tails spk noise speakers ls turn ls' :
  visit_turn spk noise speakers ls (fill_tails turn) = Ok ls' →
  (¬ Exists tailless (iter None turn)
   ∧ visit_turn spk noise speakers ls turn = Ok ls')
  ∨ (Exists tailless (iter None turn)
     ∧ visit_turn spk noise speakers ls turn = Raise AttributeError).
Proof.
  unfold visit_turn.
  assert (attrib (fill_tails turn) = attrib turn) as ->.
  { unfold fill_tails. by rewrite relabel_attrib. }
  intros H. apply bind_ok in H as (t0 & -> & H). cbn [bind].
  apply bind_ok in H as (w & Hw & H).
  unfold fill_tails in Hw. rewrite iter_relabel, foldM_map in Hw.
  eapply (foldM_first_failure
            (visit spk noise _) _ tailless AttributeError) in Hw.
  2:{ intros s x s'. apply visit_fill_tails. }
  destruct Hw as [[Hl ->]|[Hl ->]]; cbn [bind].
  - left. split; [|done]. intros Hex%Exists_exists.
    destruct Hex as (x & Hx & Hbad). eapply Forall_forall in Hl; eauto.
  - by right.
Qed.

(** The conversion of a document follows the conversion of the document
    with all tails present, up to the first [Sync] or [Event] without tail
    that the walk reaches, where it raises [AttributeError]. *)
Lemma convert_lines_fill_tails root language spk noise lines :
  convert_lines (fill_tails root) language spk noise = Ok lines →
  (¬ Exists tailless (annotations root)
   ∧ convert_lines root language spk noise = Ok lines)
  ∨ (Exists tailless (annotations root)
     ∧ convert_lines root language spk noise = Raise AttributeError).
Proof.
  rewrite !convert_lines_unfold. unfold fill_tails.
  rewrite read_speakers_relabel by done.
  intros H. apply bind_ok in H as (speakers & -> & H). simpl.
  rewrite find_relabel in H. destruct (find _ root) as [episode|]; [|done].
  simpl in H. rewrite visited_turns_relabel, foldM_map in H.
  eapply (foldM_first_failure
            (visit_turn spk noise speakers) _
            (λ turn, Exists tailless (iter None turn)) AttributeError) in H.
  2:{ intros s x s'. apply visit_turn_fill_tails. }
  unfold annotations.
  destruct H as [[Hl ->]|[Hl ->]]; [left | right]; (split; [|done]).
  - rewrite Exists_exists. intros (a & Ha & Hbad).
    apply list_elem_of_In, in_flat_map in Ha as (turn & Hturn & Ha).
    apply list_elem_of_In in Hturn, Ha.
    eapply Forall_forall in Hl; [|done]. apply Hl, Exists_exists. eauto.
  - apply Exists_exists in Hl as (turn & Hturn & Hex).
    apply Exists_exists in Hex as (a & Ha & Hbad).
    apply Exists_exists. exists a. split; [|done].
    apply list_elem_of_In, in_flat_map. exists turn.
    by split; apply list_elem_of_In.
Qed.

(** ** The lines of the output *)

Lemma cue_lines_ok spk c b :
  cue_lines spk c = Ok b ↔
  ∃ stamp, generate_timestamp (cue_start c) (cue_end c) = Ok stamp
           ∧ b = [stamp; text_line spk c; []].
Proof.
  unfold cue_lines, text_line. split.
  - intros H. apply bind_ok in H as (stamp & Hs & H). injection H as <-.
    eauto.
  - by intros (stamp & -> & ->).
Qed.

(** A line of the cues is empty, the time stamp of a cue or the text line
    of a cue. *)
Lemma cues_lines_cases spk cs body l :
  cues_lines spk cs = Ok body → l ∈ body →
  l = []
  ∨ (∃ c, c ∈ cs ∧ generate_timestamp (cue_start c) (cue_end c) = Ok l)
  ∨ (∃ c, c ∈ cs ∧ l = text_line spk c).
Proof.
  revert body. induction cs as [|c cs IH]; intros body H Hl.
  { injection H as <-. by apply elem_of_nil in Hl. }
  change (c :: cs) with ([c] ++ cs) in H.
  rewrite cues_lines_app, cues_lines_one in H.
  apply bind_ok in H as (b & (stamp & Hs & ->)%cue_lines_ok & H).
  apply bind_ok in H as (body' & Hb & H). injection H as <-.
  simpl in Hl. rewrite !elem_of_cons in Hl.
  destruct Hl as [->|[->|[->|Hl]]].
  - right. left. exists c. split; [by left | done].
  - right. right. exists c. split; [by left | done].
  - by left.
  - destruct (IH _ Hb Hl) as [?|[(c' & ? & ?)|(c' & ? & ?)]]; [by left| |].
    + right. left. exists c'. split; [by right | done].
    + right. right. exists c'. split; [by right | done].
Qed.

(** The text line of every cue is among the lines. *)
Lemma cues_lines_text_line spk cs body c :
  cues_lines spk cs = Ok body → c ∈ cs → text_line spk c ∈ body.
Proof.
  revert body. induction cs as [|c' cs IH]; intros body H Hc.
  { by apply elem_of_nil in Hc. }
  change (c' :: cs) with ([c'] ++ cs) in H.
  rewrite cues_lines_app, cues_lines_one in H.
  apply bind_ok in H as (b & (stamp & Hs & ->)%cue_lines_ok & H).
  apply bind_ok in H as (body' & Hb & H). injection H as <-.
  apply elem_of_cons in Hc as [->|Hc].
  - simpl. by apply list_elem_of_further, list_elem_of_here.
  - do 3 apply list_elem_of_further. by eapply IH.
Qed.

(** *** The characters of a time stamp *)

Lemma chars_in_decide cls s :
  forallb (λ c, Py.is_digit c || bool_decide (c ∈ cls)) s = true →
  chars_in cls s.
Proof.
  intros H. apply Forall_forall. intros c Hc%list_elem_of_In.
  eapply forallb_forall in H; [|done].
  apply orb_true_iff in H as [?|?%bool_decide_eq_true]; auto.
Qed.

Lemma format_timedelta_chars td :
  chars_in "-: days,.>" (format_timedelta td).
Proof.
  unfold format_timedelta. cbv zeta.
  destruct (to_str_split td) as (base & -> & Hc & _).
  assert (chars_in "-: days,.>" ("0" ++ take 11 (base ++
            (if (Datetime.microseconds td =? 0)%Z then []
             else "." ++ Py.fmt_d 6 (Datetime.microseconds td))))) as Ht.
  { apply chars_in_app; [apply chars_in_decide; by vm_compute|].
    apply chars_in_take, chars_in_app.
    { eapply chars_in_wider; [|exact Hc]. by vm_compute. }
    destruct (_ =? 0)%Z; [by constructor|].
    apply chars_in_app; [apply chars_in_literal; by vm_compute|].
    eapply chars_in_wider; [|apply fmt_d_chars]. by vm_compute. }
  destruct (Py.contains_char _ _); apply chars_in_app; try done.
  - apply chars_in_replicate_zero.
  - apply chars_in_decide. by vm_compute.
Qed.

Lemma generate_timestamp_chars t0 t1 stamp :
  generate_timestamp t0 t1 = Ok stamp → chars_in "-: days,.>" stamp.
Proof.
  intros (s & e & Hs & He & ->)%generate_timestamp_ok.
  apply format_time_ok in Hs as (? & ? & _ & _ & ->).
  apply format_time_ok in He as (? & ? & _ & _ & ->).
  apply chars_in_app; [apply format_timedelta_chars|].
  apply chars_in_app; [apply chars_in_literal; by vm_compute|].
  apply format_timedelta_chars.
Qed.

(** *** Markers *)

Lemma starts_with_head c p s : starts_with (c :: p) s = true → c ∈ s.
Proof.
  destruct s as [|b s]; simpl; [done|].
  intros [->%bool_decide_eq_true _]%andb_true_iff. by left.
Qed.


Lemma starts_with_app p s : starts_with p (p ++ s) = true.
Proof.
  induction p as [|a p IH]; simpl; [done|].
  by rewrite bool_decide_eq_true_2, IH.
Qed.

(** A time stamp holds no character that is neither a digit nor one of
    its marks. *)
Lemma generate_timestamp_not_elem t0 t1 stamp c :
  generate_timestamp t0 t1 = Ok stamp →
  Py.is_digit c = false → bool_decide (c ∈ ("-: days,.>" : str)) = false →
  c ∉ stamp.
Proof.
  intros H Hd Hc. eapply chars_in_not_elem; [|done|].
  - by eapply generate_timestamp_chars.
  - by apply not_elem_of_literal.
Qed.

(** *** The speaker of a cue *)

Lemma cue_visit_speaker noise speaker cw a cw' :
  cue_visit noise speaker cw a = Ok cw' →
  Forall (λ c, cue_speaker c = speaker) (cues cw) →
  Forall (λ c, cue_speaker c = speaker) (cues cw').
Proof.
  unfold cue_visit. intros H Hcs.
  destruct (decide (tag a = "Turn")); [by injection H as <-|].
  destruct (decide (tag a = "Sync")).
  { apply bind_ok in H as (t & _ & H).
    destruct (Py.truthy (cw_text cw));
      apply bind_ok in H as (fragment & _ & H); injection H as <-; [|done].
    simpl. apply Forall_app. split; [done|]. by apply Forall_singleton. }
  destruct (decide (tag a = "Event")); [|by injection H as <-].
  apply bind_ok in H as (text & _ & H).
  apply bind_ok in H as (fragment & _ & H). by injection H as <-.
Qed.

Lemma turn_cues_speaker noise speakers turn tc :
  turn_cues noise speakers turn = Ok tc →
  Forall (λ c, cue_speaker c = speaker_of speakers turn) tc.
Proof.
  unfold turn_cues. intros H.
  apply bind_ok in H as (t0 & _ & H). apply bind_ok in H as (w & E & H).
  assert (Forall (λ c, cue_speaker c = speaker_of speakers turn) (cues w)).
  { eapply (foldM_invariant
              (λ w, Forall (λ c, cue_speaker c = speaker_of speakers turn)
                      (cues w))), E; [|by constructor].
    intros s x s' _ Hs Hstep. by eapply cue_visit_speaker. }
  destruct (Py.truthy (cw_text w)).
  - apply bind_ok in H as (t1 & _ & H). injection H as <-.
    apply Forall_app. split; [done|]. by apply Forall_singleton.
  - by injection H as <-.
Qed.

(** The speaker of a cue is the speaker of a turn of the document. *)
Lemma document_cues_speaker root noise cs :
  document_cues root noise = Ok cs →
  ∃ speakers, read_speakers root = Ok speakers
    ∧ Forall (λ c, ∃ turn, turn ∈ visited_turns root
                           ∧ cue_speaker c = speaker_of speakers turn) cs.
Proof.
  unfold document_cues. intros H.
  apply bind_ok in H as (speakers & Hsp & H). exists speakers.
  split; [done|]. destruct (find _ root); [|done].
  eapply (foldM_invariant
            (Forall (λ c, ∃ turn, turn ∈ visited_turns root
                                  ∧ cue_speaker c = speaker_of speakers turn))),
    H; [|by constructor].
  intros cs0 turn cs1 Hturn Hcs0 Hstep.
  apply bind_ok in Hstep as (tc & Htc & Hstep). injection Hstep as <-.
  apply Forall_app. split; [done|].
  eapply Forall_impl; [by eapply turn_cues_speaker|].
  intros c Hc. by exists turn.
Qed.


(** ** Where the form of the formatted time ends *)

(** No time stamp has a blank after its first digits. *)
Lemma is_timestamp_space ds X :
  Forall (λ d, Py.is_digit d = true) ds →
  is_timestamp (ds ++ " "%char :: X) = false.
Proof.
  intros Hds. unfold is_timestamp. rewrite span_digits_app by done.
  destruct (bool_decide (2 ≤ length ds)); [|done]. cbn [andb].
  repeat (destruct X as [|? X]; try reflexivity).
Qed.

(** A duration of a day or more is not formatted as a time stamp: the
    result names the days. *)
Lemma format_timedelta_days td :
  (1 ≤ Datetime.days td ≤ 999999999)%Z →
  is_timestamp (format_timedelta td) = false.
Proof.
  intros Hd.
  assert (∃ R, Datetime.to_str td
               = Py.str_int (Datetime.days td) ++ " "%char :: R) as [R HR].
  { unfold Datetime.to_str. cbv zeta.
    destruct (Z.eqb_spec (Datetime.days td) 0) as [?|_]; [lia|].
    destruct (Datetime.microseconds td =? 0)%Z; eexists;
      rewrite <- ?app_assoc; reflexivity. }
  assert (Forall (λ d, Py.is_digit d = true) (Py.str_int (Datetime.days td)))
    as Hdig by (apply str_int_digits; lia).
  assert (length (Py.str_int (Datetime.days td)) ≤ 9) as Hlen.
  { unfold Py.str_int.
    destruct (Z.ltb_spec (Datetime.days td) 0); [lia|].
    apply (str_nonneg_length_le _ 8). simpl. lia. }
  unfold format_timedelta. cbv zeta. rewrite HR, take_app, take_ge by lia.
  replace (11 - length (Py.str_int (Datetime.days td)))
    with (S (10 - length (Py.str_int (Datetime.days td)))) by lia.
  cbn [take].
  destruct (Py.contains_char _ _);
    rewrite (assoc_L (++) "0"), <- (assoc_L (++) ("0" ++ _));
    apply is_timestamp_space;
    (apply Forall_app; split; [by repeat constructor | done]).
Qed.

(** From ten hours on, microseconds leave room for two fractional digits
    only. *)
Lemma format_timedelta_cut_fraction td :
  Datetime.days td = 0%Z →
  (36000 ≤ Datetime.seconds td < 86400)%Z →
  (0 < Datetime.microseconds td < 1000000)%Z →
  is_timestamp (format_timedelta td) = false.
Proof.
  intros Hdays Hsecs Hus.
  destruct (to_str_under_a_day td Hdays)
    as (hh & m1 & m2 & s1 & s2 & Hstr & Hd & _ & Htwo); [lia|].
  apply Forall_app in Hd as [Hhh Hd].
  destruct (digits_two hh (Htwo (proj1 Hsecs)) Hhh)
    as (h1 & h2 & -> & Hh1 & Hh2).
  rewrite !Forall_cons in Hd. destruct Hd as (Hm1 & Hm2 & Hs1 & Hs2 & _).
  unfold format_timedelta. cbv zeta. rewrite Hstr.
  destruct (Z.eqb_spec (Datetime.microseconds td) 0) as [?|_]; [lia|].
  destruct (digits_six (Py.fmt_d 6 (Datetime.microseconds td)))
    as (f1 & f2 & f3 & r & -> & Hr & Hf1 & Hf2 & Hf3).
  { apply (fmt_d_length 5). lia. }
  { apply fmt_d_digits. lia. }
  replace (Py.contains_char _ _) with true.
  2:{ symmetry. apply contains_char_true. literals. simpl.
      rewrite !elem_of_cons. auto 20. }
  literals. unfold is_timestamp. simpl.
  by rewrite Hh1, Hh2.
Qed.

Lemma of_microseconds_in_range us :
  (0 ≤ us)%Z → (us / 1000000 / 86400 ≤ 999999999)%Z →
  Datetime.of_microseconds us
  = Ok (Datetime.Timedelta (us / 1000000 / 86400)
          (us / 1000000 mod 86400) (us mod 1000000)).
Proof.
  intros Hus Hd. unfold Datetime.of_microseconds. cbv zeta.
  assert (0 ≤ us / 1000000 / 86400)%Z
    by (apply Z.div_pos; [apply Z.div_pos|]; lia).
  destruct (Z.leb_spec (Z.abs (us / 1000000 / 86400)) 999999999); [done|lia].
Qed.

(** C2. For a time code that stands for a number of microseconds [us],
    not negative and within the range of [timedelta], [format_time] returns
    a string; it has the form [HH:MM:SS.mmm] exactly when [us] is less than
    ten hours, or less than a day and a whole number of seconds.  Under ten
    hours the string has twelve characters; from ten hours on the hours
    take three digits. *)
Theorem C2_timestamp_form time us :
  time_us time = Some us → (0 ≤ us)%Z →
  (us / 1000000 / 86400 ≤ 999999999)%Z →
  ∃ out, format_time time = Ok out
    ∧ (is_timestamp out = true ↔
       (us < 36000000000
        ∨ (us < 86400000000 ∧ us mod 1000000 = 0))%Z)
    ∧ ((us < 36000000000)%Z → length out = 12)
    ∧ (is_timestamp out = true → (36000000000 ≤ us)%Z → length out = 13).
Proof.
  intros Ht Hus Hrange.
  rewrite (time_us_format_time _ _ Ht), of_microseconds_in_range by done.
  cbn [bind]. eexists. split; [done|].
  set (td := Datetime.Timedelta _ _ _).
  pose proof (Z.mod_pos_bound (us / 1000000) 86400 eq_refl) as Hs.
  pose proof (Z.mod_pos_bound us 1000000 eq_refl) as Hm.
  assert (0 ≤ us / 1000000 / 86400)%Z as Hd0
    by (apply Z.div_pos; [apply Z.div_pos|]; lia).
  destruct (decide (us < 86400000000)%Z) as [Hday|Hday].
  - assert (us / 1000000 / 86400 = 0)%Z as Hd.
    { apply Z.div_small. split; [apply Z.div_pos; lia|].
      apply Z.div_lt_upper_bound; lia. }
    assert (us / 1000000 mod 86400 = us / 1000000)%Z as Hsec.
    { apply Z.mod_small. split; [apply Z.div_pos; lia|].
      apply Z.div_lt_upper_bound; lia. }
    destruct (decide (us < 36000000000)%Z) as [Hlt|Hge].
    + destruct (format_timedelta_under_ten_hours td Hd Hs Hm) as [Hts Hlen].
      { unfold td. simpl. rewrite Hsec. apply Z.div_lt_upper_bound; lia. }
      split; [|split]; [split; auto| auto | lia].
    + assert (36000 ≤ Datetime.seconds td)%Z as Hge'.
      { unfold td. simpl. rewrite Hsec. apply Z.div_le_lower_bound; lia. }
      destruct (decide (us mod 1000000 = 0)%Z) as [Hz|Hnz].
      * destruct (format_timedelta_whole_seconds td Hd Hs Hge' Hz)
          as [Hts Hlen].
        split; [|split]; [split; auto| lia | auto].
      * rewrite (format_timedelta_cut_fraction td Hd);
          [|split; [exact Hge' | apply Hs]|simpl; lia].
        split; [|split]; [split; [done|lia] | lia | done].
  - rewrite (format_timedelta_days td).
    2:{ unfold td. simpl. split; [|done].
        apply Z.div_le_lower_bound; [lia|].
        apply Z.div_le_lower_bound; lia. }
    split; [|split]; [split; [done|lia] | lia | done].
Qed.

Lemma C2_timestamp_form_witness :
  ∃ out, format_time "3661.5" = Ok out
    ∧ (is_timestamp out = true ↔
       (3661500000 < 36000000000
        ∨ (3661500000 < 86400000000 ∧ 3661500000 mod 1000000 = 0))%Z)
    ∧ ((3661500000 < 36000000000)%Z → length out = 12)
    ∧ (is_timestamp out = true → (36000000000 ≤ 3661500000)%Z →
       length out = 13).
Proof.
  apply (C2_timestamp_form "3661.5" 3661500000).
  - by vm_compute.
  - lia.
  - by vm_compute.
Defined.

(** C2, the claim as written fails, and the code falls short of its own
    description as a time code of fixed length with a suffix of three
    digits.  Ten hours and a half are a non-negative number of seconds, and
    the result has two fractional digits; a day gives a result that names
    the day; a number just under ten hours is rounded to ten hours and
    gives three digits of hours. *)
Lemma C2_ten_hours_and_a_half :
  time_us "36000.5" = Some 36000500000%Z
  ∧ format_time "36000.5" = Ok ("010:00:00.50" : str)
  ∧ is_timestamp "010:00:00.50" = false
  ∧ time_us "86400" = Some 86400000000%Z
  ∧ format_time "86400" = Ok ("01 day, 0:00.000" : str)
  ∧ is_timestamp "01 day, 0:00.000" = false
  ∧ time_us "35999.9999995" = Some 36000000000%Z
  ∧ format_time "35999.9999995" = Ok ("010:00:00.000" : str).
Proof. by vm_compute. Qed.

(** ** The cues of a turn are its segments with text *)

Lemma with_text_app l1 l2 : with_text (l1 ++ l2) = with_text l1 ++ with_text l2.
Proof. apply filter_app. Qed.

Lemma with_text_cons c l :
  with_text (c :: l)
  = (if Py.truthy (cue_text c) then [c] else []) ++ with_text l.
Proof.
  unfold with_text. rewrite filter_cons.
  destruct (decide (cue_text c ≠ [])) as [H|H].
  - apply truthy_true in H. by rewrite H.
  - assert (Py.truthy (cue_text c) = false) as ->; [|done].
    apply truthy_false. by destruct (cue_text c); [|destruct H].
Qed.

(** The walk from a state writes the cues of the segments with text that
    follow; its last segment is pending in the final state. *)
Lemma foldM_cue_visit_segments noise speaker l cw cw' t_end :
  foldM (cue_visit noise speaker) l cw = Ok cw' →
  cues cw ++ with_text (segments noise speaker l (cw_start cw) (cw_text cw) t_end)
  = cues cw'
      ++ with_text [mkCue (cw_start cw') t_end speaker (cw_text cw')].
Proof.
  revert cw. induction l as [|a l IH]; intros cw H; simpl in H.
  { by injection H as <-. }
  apply bind_ok in H as (cw1 & Hstep & H). specialize (IH _ H).
  rewrite <- IH. clear IH H. simpl segments. unfold cue_visit in Hstep.
  destruct (decide (tag a = "Turn")) as [HT|HT].
  { injection Hstep as <-. rewrite decide_False by (by rewrite HT).
    unfold appended. rewrite decide_False by (by rewrite HT).
    by rewrite app_nil_r. }
  destruct (decide (tag a = "Sync")) as [HS|HS].
  { apply bind_ok in Hstep as (t & Ht & Hstep). unfold getitem in Ht.
    destruct (attrib a !! _) as [t'|]; [|done]. injection Ht as <-.
    destruct (tail a) as [tl|]; [|by destruct (Py.truthy _)].
    rewrite with_text_cons. simpl cue_text. simpl default.
    destruct (Py.truthy (cw_text cw)) eqn:Htr; simpl in Hstep;
      injection Hstep as <-; simpl.
    - by rewrite <- app_assoc.
    - apply truthy_false in Htr. by rewrite Htr. }
  unfold appended. destruct (decide (tag a = "Event")) as [HE|HE].
  - apply bind_ok in Hstep as (text & Htext & Hstep).
    destruct (tail a) as [tl|]; [|done]. injection Hstep as <-. simpl.
    destruct noise.
    + apply bind_ok in Htext as (desc & Hdesc & Htext).
      apply bind_ok in Htext as (markup & Hmarkup & Htext).
      injection Htext as <-. unfold getitem in Hdesc, Hmarkup.
      destruct (attrib a !! _) as [d|]; [|done]. injection Hdesc as <-.
      simpl. destruct (noise !! d) as [m|]; [|done]. injection Hmarkup as <-.
      simpl. by rewrite <- app_assoc.
    + by injection Htext as <-.
  - injection Hstep as <-. by rewrite app_nil_r.
Qed.

(** The cues of a turn are its segments with text. *)
Lemma turn_cues_segments noise speakers turn tc :
  turn_cues noise speakers turn = Ok tc →
  tc = with_text (turn_segments noise speakers turn).
Proof.
  unfold turn_cues, turn_segments. intros H.
  apply bind_ok in H as (t0 & Ht0 & H). unfold getitem in Ht0.
  destruct (attrib turn !! ("startTime" : str)) as [t|]; [|done].
  injection Ht0 as <-. apply bind_ok in H as (w & Hw & H).
  apply (foldM_cue_visit_segments _ _ _ _ _
           (default [] (attrib turn !! ("endTime" : str)))) in Hw.
  simpl in Hw. change (default [] (Some t)) with t.
  rewrite Hw, with_text_cons. simpl cue_text.
  destruct (Py.truthy (cw_text w)).
  - apply bind_ok in H as (t1 & Ht1 & H). unfold getitem in Ht1.
    destruct (attrib turn !! ("endTime" : str)) as [t'|]; [|done].
    injection Ht1 as <-. by injection H as <-.
  - injection H as <-. by rewrite app_nil_r.
Qed.

(** The cues of a document are the segments with text of its turns, turn
    after turn. *)
Lemma document_cues_segments root noise cs :
  document_cues root noise = Ok cs →
  ∃ speakers, read_speakers root = Ok speakers
    ∧ cs = flat_map (λ turn, with_text (turn_segments noise speakers turn))
             (visited_turns root).
Proof.
  unfold document_cues. intros H.
  apply bind_ok in H as (speakers & Hsp & H). exists speakers.
  split; [done|]. destruct (find _ root); [|done].
  revert cs H. induction (visited_turns root) as [|turn l IH] using rev_ind;
    intros cs H.
  - by injection H as <-.
  - rewrite foldM_snoc in H. apply bind_ok in H as (cs0 & Hcs0 & H).
    apply bind_ok in H as (tc & Htc & H). injection H as <-.
    rewrite flat_map_app. simpl. rewrite app_nil_r.
    f_equal; [by apply IH | by apply turn_cues_segments].
Qed.

(** *** Segments follow one another *)

Lemma contiguous_cons c c' l :
  cue_end c = cue_start c' → contiguous (c' :: l) → contiguous (c :: c' :: l).
Proof.
  intros Heq Hl [|i] c1 c2 H1 H2.
  - injection H1 as <-. by injection H2 as <-.
  - by apply (Hl i).
Qed.

Lemma segments_contiguous noise speaker l t text t_end :
  contiguous (segments noise speaker l t text t_end)
  ∧ ∃ c rest, segments noise speaker l t text t_end = c :: rest
              ∧ cue_start c = t.
Proof.
  revert t text. induction l as [|a l IH]; intros t text; simpl.
  { split; [by intros [|?] ?? |]. eauto. }
  destruct (decide (tag a = "Sync")); [|apply IH].
  destruct (IH (default [] (attrib a !! ("time" : str)))
              (Py.strip (default [] (tail a)))) as (Hc & c & rest & Heq & Hs).
  split; [|eauto]. rewrite Heq in *. by apply contiguous_cons.
Qed.

(** Between two segments with text that follow one another among the
    segments with text, the segments have no text. *)
Lemma with_text_adjacent l i c1 c2 :
  with_text l !! i = Some c1 → with_text l !! S i = Some c2 →
  ∃ l1 gaps l2,
    l = l1 ++ c1 :: gaps ++ c2 :: l2
    ∧ Forall (λ g, cue_text g = []) gaps.
Proof.
  revert i. induction l as [|a l IH]; intros i H1 H2; [done|].
  rewrite with_text_cons in H1, H2.
  destruct (Py.truthy (cue_text a)) eqn:Ha; simpl in H1, H2.
  - destruct i as [|i].
    + injection H1 as <-. clear IH. exists [].
      induction l as [|b l IH]; [done|].
      rewrite with_text_cons in H2.
      destruct (Py.truthy (cue_text b)) eqn:Hb; simpl in H2.
      * injection H2 as <-. by exists [], l.
      * destruct (IH H2) as (gaps & l2 & [= ->] & Hg).
        exists (b :: gaps), l2. split; [done|]. constructor; [|done].
        by apply truthy_false.
    + destruct (IH i H1 H2) as (l1 & gaps & l2 & -> & Hg).
      by exists (a :: l1), gaps, l2.
  - destruct (IH i H1 H2) as (l1 & gaps & l2 & -> & Hg).
    by exists (a :: l1), gaps, l2.
Qed.

(** Between a cue and the next cue of its turn lie segments without text
    only; the cue ends where the next cue starts, or where the first of
    these segments starts. *)
Lemma with_text_gap l i c1 c2 :
  contiguous l →
  with_text l !! i = Some c1 → with_text l !! S i = Some c2 →
  ∃ l1 gaps l2,
    l = l1 ++ c1 :: gaps ++ c2 :: l2
    ∧ Forall (λ g, cue_text g = []) gaps
    ∧ (cue_end c1 = cue_start c2
       ∨ ∃ g rest, gaps = g :: rest ∧ cue_end c1 = cue_start g).
Proof.
  intros Hl H1 H2.
  destruct (with_text_adjacent _ _ _ _ H1 H2) as (l1 & gaps & l2 & -> & Hg).
  exists l1, gaps, l2. do 2 (split; [done|]).
  assert ((l1 ++ c1 :: gaps ++ c2 :: l2) !! length l1 = Some c1) as Hc1.
  { by rewrite lookup_app_r, Nat.sub_diag by lia. }
  destruct gaps as [|g gaps]; [left | right; exists g, gaps; split; [done|]];
    (apply (Hl (length l1)); [done|]);
    rewrite lookup_app_r by lia;
    by replace (S (length l1) - length l1) with 1 by lia.
Qed.

(** C3. The cues of a conversion are the segments with text of the turns:
    a segment is the text between two time marks of a turn that follow one
    another ([startTime], the time of each [Sync], [endTime]), and these are
    its range, so that each segment ends where the next one starts.  When
    the times of the document are non-decreasing in the order they are
    read, every cue ends after its start and before the start of the next
    cue.  Between a cue and the next cue of its turn lie segments without
    text only: the cue ends where the next cue starts when there is none,
    and where the first of them starts otherwise, the [Sync] that ends the
    cue being followed by no text up to the next [Sync]. *)
Theorem C3_cue_ranges (le : str → str → Prop) root language add_speakers
    preserve_noise lines :
  convert_lines root language add_speakers preserve_noise = Ok lines →
  ∃ speakers cs body,
    read_speakers root = Ok speakers
    ∧ document_cues root preserve_noise = Ok cs
    ∧ cues_lines add_speakers cs = Ok body
    ∧ lines = header language ++ body
    ∧ cs = flat_map
             (λ turn, with_text (turn_segments preserve_noise speakers turn))
             (visited_turns root)
    ∧ (∀ turn, contiguous (turn_segments preserve_noise speakers turn))
    ∧ (monotone le (timeline root) →
       (∀ c, c ∈ cs → le (cue_start c) (cue_end c))
       ∧ ∀ i c1 c2, cs !! i = Some c1 → cs !! S i = Some c2 →
           le (cue_end c1) (cue_start c2))
    ∧ (∀ turn i c1 c2,
         turn ∈ visited_turns root →
         with_text (turn_segments preserve_noise speakers turn) !! i
         = Some c1 →
         with_text (turn_segments preserve_noise speakers turn) !! S i
         = Some c2 →
         ∃ l1 gaps l2,
           turn_segments preserve_noise speakers turn
           = l1 ++ c1 :: gaps ++ c2 :: l2
           ∧ Forall (λ g, cue_text g = []) gaps
           ∧ (cue_end c1 = cue_start c2
              ∨ ∃ g rest, gaps = g :: rest ∧ cue_end c1 = cue_start g)).
Proof.
  intros H.
  destruct (convert_lines_cues _ _ _ _ _ H) as (cs & body & Hcs & Hbody & ->).
  destruct (document_cues_segments _ _ _ Hcs) as (speakers & Hsp & Heq).
  exists speakers, cs, body. do 5 (split; [done|]). split; [|split].
  - intros turn. apply segments_contiguous.
  - intros Hmono. apply ordered_cue_times.
    eapply ordered_sublist; [by eapply document_cues_times|].
    by apply ordered_twice, monotone_ordered.
  - intros turn i c1 c2 _. apply with_text_gap, segments_contiguous.
Qed.

Lemma C3_cue_ranges_witness :
  monotone time_le (timeline doc_gap)
  ∧ ∃ speakers cs body,
    read_speakers doc_gap = Ok speakers
    ∧ document_cues doc_gap false = Ok cs
    ∧ cues_lines false cs = Ok body
    ∧ ["WEBVTT" : str; [];
       "00:00:00.000 --> 00:00:01.000" : str; "a" : str; [];
       "00:00:02.000 --> 00:00:03.000" : str; "b" : str; []]
      = header None ++ body
    ∧ cs = flat_map (λ turn, with_text (turn_segments false speakers turn))
             (visited_turns doc_gap)
    ∧ (∀ turn, contiguous (turn_segments false speakers turn))
    ∧ (monotone time_le (timeline doc_gap) →
       (∀ c, c ∈ cs → time_le (cue_start c) (cue_end c))
       ∧ ∀ i c1 c2, cs !! i = Some c1 → cs !! S i = Some c2 →
           time_le (cue_end c1) (cue_start c2))
    ∧ (∀ turn i c1 c2,
         turn ∈ visited_turns doc_gap →
         with_text (turn_segments false speakers turn) !! i = Some c1 →
         with_text (turn_segments false speakers turn) !! S i = Some c2 →
         ∃ l1 gaps l2,
           turn_segments false speakers turn = l1 ++ c1 :: gaps ++ c2 :: l2
           ∧ Forall (λ g, cue_text g = []) gaps
           ∧ (cue_end c1 = cue_start c2
              ∨ ∃ g rest, gaps = g :: rest ∧ cue_end c1 = cue_start g)).
Proof.
  split.
  - apply monotone_ordered.
    assert (timeline doc_gap
            = ["0" : str; "0" : str; "1" : str; "2" : str; "3" : str]) as ->
      by (by vm_compute).
    cbn [ordered]. repeat split; repeat constructor; by vm_compute.
  - apply (C3_cue_ranges time_le doc_gap None false false).
    by vm_compute.
Defined.

(** C3, the claim as written fails.  In this turn the text of the first
    cue ends at the second [Sync], which is followed by a blank only; the
    next cue starts at the third [Sync], not where the first cue ended.
    The times of the document are non-decreasing. *)
Lemma C3_gap_between_cues :
  turn_cues false ∅ turn_gap
  = Ok [mkCue "0" "1" [] "a"; mkCue "2" "3" [] "b"]
  ∧ turn_segments false ∅ turn_gap
    = [mkCue "0" "0" [] []; mkCue "0" "1" [] "a"; mkCue "1" "2" [] [];
       mkCue "2" "3" [] "b"]
  ∧ convert_lines doc_gap None false false
    = Ok ["WEBVTT" : str; [];
          "00:00:00.000 --> 00:00:01.000" : str; "a" : str; [];
          "00:00:02.000 --> 00:00:03.000" : str; "b" : str; []]
  ∧ ("1" : str) ≠ "2"
  ∧ ordered time_le (timeline doc_gap).
Proof.
  do 4 (split; [by vm_compute|]).
  assert (timeline doc_gap
          = ["0" : str; "0" : str; "1" : str; "2" : str; "3" : str]) as ->
    by (by vm_compute).
  cbn [ordered]. repeat split; repeat constructor; by vm_compute.
Qed.

(** ** The exception of an absent tail *)








(** ** The lines of the output text *)

Lemma split_lines_not_nil s : split_lines s ≠ [].
Proof.
  destruct s as [|c s]; simpl; [done|].
  destruct (decide _); [done|]. by destruct (split_lines s).
Qed.

(** The lines of two texts joined by a newline are the lines of the one
    and the lines of the other. *)
Lemma split_lines_newline a b :
  split_lines (a ++ "010"%char :: b) = split_lines a ++ split_lines b.
Proof.
  induction a as [|c a IH]; simpl.
  - first [done | by rewrite decide_True].
  - destruct (decide (c = "010"%char)); rewrite IH; [done|].
    pose proof (split_lines_not_nil a). by destruct (split_lines a).
Qed.

Lemma split_lines_join ls :
  ls ≠ [] → split_lines (Py.join ["010"%char] ls) = flat_map split_lines ls.
Proof.
  induction ls as [|x ls IH]; [done|]. intros _.
  destruct ls as [|y ls].
  - simpl. by rewrite app_nil_r.
  - change (Py.join ["010"%char] (x :: y :: ls))
      with (x ++ "010"%char :: Py.join ["010"%char] (y :: ls)).
    by rewrite split_lines_newline, IH.
Qed.

(** A text without newline is one line. *)
Lemma split_lines_one s : "010"%char ∉ s → split_lines s = [s].
Proof.
  induction s as [|c s IH]; [done|]. intros [Hc Hs]%not_elem_of_cons.
  simpl. rewrite decide_False by done. by rewrite IH.
Qed.

(** The characters of a line of a text are characters of the text. *)
Lemma split_lines_chars s l c : l ∈ split_lines s → c ∈ l → c ∈ s.
Proof.
  revert l. induction s as [|d s IH]; intros l; simpl.
  { intros ->%list_elem_of_singleton. done. }
  destruct (decide (d = "010"%char)).
  - intros [->|Hl]%elem_of_cons Hc; [by apply elem_of_nil in Hc|].
    right. by eapply IH.
  - pose proof (split_lines_not_nil s).
    destruct (split_lines s) as [|l0 ls]; [done|].
    intros [->|Hl]%elem_of_cons Hc.
    + apply elem_of_cons in Hc as [->|Hc]; [by left|].
      right. apply (IH l0); [by left | done].
    + right. apply (IH l); [by right | done].
Qed.

Lemma elem_of_flat_map_split_lines ls l :
  l ∈ flat_map split_lines ls ↔ ∃ e, e ∈ ls ∧ l ∈ split_lines e.
Proof.
  rewrite list_elem_of_In, in_flat_map.
  by setoid_rewrite list_elem_of_In.
Qed.

(** *** The blocks of the turns *)





Lemma header_not_nil language : header language ++ [] ≠ [].
Proof. by destruct language as [[|??]|]. Qed.

(** The lines of the output text are the lines of the elements of
    [vtt_lines]. *)
Lemma convert_split_lines root language spk noise out :
  convert root language spk noise = Ok out →
  ∃ lines, convert_lines root language spk noise = Ok lines
           ∧ out = Py.join ["010"%char] lines
           ∧ split_lines out = flat_map split_lines lines.
Proof.
  intros (lines & Hl & ->)%convert_ok. exists lines. do 2 (split; [done|]).
  apply split_lines_join.
  apply convert_lines_cues in Hl as (cs & body & _ & _ & ->).
  by destruct language as [[|??]|].
Qed.

(** A line of a header or of a time stamp holds no character [c] that is
    not one of theirs. *)
Lemma header_line_chars language e c :
  e ∈ header language → c ∈ e →
  bool_decide (c ∈ ("WEBVTT" : str)) = false →
  ∃ tag, language = Some tag ∧ tag ≠ [] ∧ e = "Language: " ++ tag.
Proof.
  intros He Hc Hno. apply not_elem_of_literal in Hno.
  unfold header in He.
  destruct language as [[|c0 tag]|]; rewrite !elem_of_cons in He.
  - destruct He as [->|[->|He]]; [done| |]; exfalso;
      eapply elem_of_nil; eauto.
  - destruct He as [->|[->|[->|He]]]; [done| | |]; try (by eexists);
      exfalso; eapply elem_of_nil; eauto.
  - destruct He as [->|[->|He]]; [done| |]; exfalso;
      eapply elem_of_nil; eauto.
Qed.

(** A line of the output text that holds a character which is neither of
    the first line nor of a time stamp is a line of the language line or
    of the text line of a cue. *)
Lemma output_line_origin root language spk noise lines cs body l c :
  convert_lines root language spk noise = Ok lines →
  document_cues root noise = Ok cs → cues_lines spk cs = Ok body →
  lines = header language ++ body →
  l ∈ flat_map split_lines lines → c ∈ l →
  bool_decide (c ∈ ("WEBVTT" : str)) = false →
  Py.is_digit c = false → bool_decide (c ∈ ("-: days,.>" : str)) = false →
  (∃ tag, language = Some tag ∧ tag ≠ []
          ∧ l ∈ split_lines ("Language: " ++ tag))
  ∨ ∃ c', c' ∈ cs ∧ l ∈ split_lines (text_line spk c').
Proof.
  intros _ Hcs Hbody -> Hl Hc Hw Hd Hs.
  apply elem_of_flat_map_split_lines in Hl as (e & He & Hl).
  pose proof (split_lines_chars _ _ _ Hl Hc) as Hce.
  apply elem_of_app in He as [He|He].
  - left.
    destruct (header_line_chars _ _ _ He Hce Hw) as (tag & -> & Htag & ->).
    eauto.
  - destruct (cues_lines_cases _ _ _ _ Hbody He)
      as [->|[(c' & Hc' & Hst)|(c' & Hc' & ->)]].
    + by apply elem_of_nil in Hce.
    + by eapply generate_timestamp_not_elem in Hce.
    + right. eauto.
Qed.


(** ** The voice tag *)




(** ** The language line *)

(** C9. The output text begins with the line [WEBVTT]; then comes an empty
    line, when the language tag is empty or absent, or the language line
    and an empty line; the lines of the cues follow.  The language line is
    one line of the output when the tag holds no newline.  Among the lines
    of the cues a line that begins like the language line is a line of the
    text line of a cue: it comes from the text of the document or the name
    of a speaker. *)
Theorem C9_language_header root language add_speakers preserve_noise out :
  convert root language add_speakers preserve_noise = Ok out →
  ∃ cs body,
    document_cues root preserve_noise = Ok cs
    ∧ cues_lines add_speakers cs = Ok body
    ∧ out = Py.join ["010"%char] (header language ++ body)
    ∧ (language = None ∨ language = Some [] →
       split_lines out = ["WEBVTT" : str; []] ++ flat_map split_lines body)
    ∧ (∀ tag, language = Some tag → tag ≠ [] →
         split_lines out
         = ["WEBVTT" : str] ++ split_lines ("Language: " ++ tag) ++ [[]]
             ++ flat_map split_lines body
         ∧ ("010"%char ∉ tag →
            split_lines ("Language: " ++ tag) = ["Language: " ++ tag]))
    ∧ (∀ l, l ∈ flat_map split_lines body →
         starts_with "Language:" l = true →
         ∃ c, c ∈ cs ∧ l ∈ split_lines (text_line add_speakers c)).
Proof.
  intros (lines & Hlines & -> & Hsplit)%convert_split_lines.
  destruct (convert_lines_cues _ _ _ _ _ Hlines)
    as (cs & body & Hcs & Hbody & ->).
  exists cs, body. do 3 (split; [done|]). rewrite Hsplit. split; [|split].
  - by intros [->| ->].
  - intros tag -> Htag. split.
    + destruct tag as [|c tag]; [done|]. unfold header.
      rewrite flat_map_app. cbn [flat_map].
      change (split_lines ("WEBVTT" : str)) with ["WEBVTT" : str].
      change (split_lines []) with [[] : str].
      by rewrite app_nil_r, <- !app_assoc.
    + intros Hnl. apply split_lines_one.
      rewrite elem_of_app. intros [Hin|Hin]; [|done].
      by apply not_elem_of_literal in Hin.
  - intros l Hl Hm.
    apply elem_of_flat_map_split_lines in Hl as (e & He & Hl).
    apply (starts_with_head "L"%char ("anguage:" : str)) in Hm.
    pose proof (split_lines_chars _ _ _ Hl Hm) as Hce.
    destruct (cues_lines_cases _ _ _ _ Hbody He)
      as [->|[(c' & Hc' & Hst)|(c' & Hc' & ->)]].
    + by apply elem_of_nil in Hce.
    + by eapply generate_timestamp_not_elem in Hce.
    + eauto.
Qed.

Lemma C9_language_header_witness :
  ∃ cs body,
    document_cues doc_hello false = Ok cs
    ∧ cues_lines false cs = Ok body
    ∧ Py.join ["010"%char]
        ["WEBVTT" : str; "Language: en" : str; [];
         "00:00:02.000 --> 00:00:05.000" : str; "Hello there" : str; []]
      = Py.join ["010"%char] (header (Some ("en" : str)) ++ body)
    ∧ (Some ("en" : str) = None ∨ Some ("en" : str) = Some [] →
       split_lines
         (Py.join ["010"%char]
            ["WEBVTT" : str; "Language: en" : str; [];
             "00:00:02.000 --> 00:00:05.000" : str; "Hello there" : str; []])
       = ["WEBVTT" : str; []] ++ flat_map split_lines body)
    ∧ (∀ tag, Some ("en" : str) = Some tag → tag ≠ [] →
         split_lines
           (Py.join ["010"%char]
              ["WEBVTT" : str; "Language: en" : str; [];
               "00:00:02.000 --> 00:00:05.000" : str; "Hello there" : str;
               []])
         = ["WEBVTT" : str] ++ split_lines ("Language: " ++ tag) ++ [[]]
             ++ flat_map split_lines body
         ∧ ("010"%char ∉ tag →
            split_lines ("Language: " ++ tag) = ["Language: " ++ tag]))
    ∧ (∀ l, l ∈ flat_map split_lines body →
         starts_with "Language:" l = true →
         ∃ c, c ∈ cs ∧ l ∈ split_lines (text_line false c)).
Proof.
  apply (C9_language_header doc_hello (Some ("en" : str)) false false).
  by vm_compute.
Defined.

(** C9, the claim as written fails.  Without language tag, the text of
    the first document gives a line of the output that reads like the
    language line; so does the second line of the text of the second
    document, with speakers. *)
Lemma C9_language_line_from_text :
  (∃ out, convert doc_language_text None false false = Ok out
          ∧ split_lines out
            = ["WEBVTT" : str; []; "00:00:00.000 --> 00:00:05.000" : str;
               "Language: en" : str; []])
  ∧ (∃ out, convert doc_two_lines (Some []) true false = Ok out
            ∧ split_lines out
              = ["WEBVTT" : str; []; "00:00:00.000 --> 00:00:05.000" : str;
                 "<v Alice>first line" : str; "Language: fr" : str; []]).
Proof. split; eexists; (split; [by vm_compute|]); by vm_compute. Qed.

(** ** The value of a formatted time *)

Lemma Z_of_digits_acc ds acc :
  fold_left (λ acc c, (10 * acc + Py.digit_val c)%Z) ds acc
  = (acc * 10 ^ Z.of_nat (length ds) + Py.Z_of_digits ds)%Z.
Proof.
  unfold Py.Z_of_digits. revert acc.
  induction ds as [|d ds IH]; intros acc; simpl fold_left.
  - simpl. lia.
  - rewrite (IH (10 * acc + Py.digit_val d)%Z), (IH (10 * 0 + _)%Z).
    rewrite length_cons, Nat2Z.inj_succ, Z.pow_succ_r by lia. lia.
Qed.

Lemma Z_of_digits_app a b :
  Py.Z_of_digits (a ++ b)
  = (Py.Z_of_digits a * 10 ^ Z.of_nat (length b) + Py.Z_of_digits b)%Z.
Proof.
  unfold Py.Z_of_digits at 1. rewrite fold_left_app.
  fold (Py.Z_of_digits a). apply Z_of_digits_acc.
Qed.

Lemma digit_val_digit_char d :
  (0 ≤ d < 10)%Z → Py.digit_val (Py.digit_char d) = d.
Proof.
  intros Hd.
  assert (d = 0 ∨ d = 1 ∨ d = 2 ∨ d = 3 ∨ d = 4 ∨ d = 5 ∨ d = 6 ∨ d = 7
          ∨ d = 8 ∨ d = 9)%Z as H by lia.
  repeat destruct H as [->|H]; try subst d; reflexivity.
Qed.

Lemma digit_val_bounds c : Py.is_digit c = true → (0 ≤ Py.digit_val c < 10)%Z.
Proof.
  unfold Py.is_digit, Py.digit_val. intros H%andb_true_iff.
  destruct H as [H1%N.leb_le H2%N.leb_le]. lia.
Qed.

Lemma Z_of_digits_bounds ds :
  Forall (λ c, Py.is_digit c = true) ds →
  (0 ≤ Py.Z_of_digits ds < 10 ^ Z.of_nat (length ds))%Z.
Proof.
  induction ds as [|d ds IH] using rev_ind; intros H.
  - simpl. unfold Py.Z_of_digits. simpl. lia.
  - apply Forall_app in H as [Hds Hd]. rewrite Forall_singleton in Hd.
    apply digit_val_bounds in Hd. specialize (IH Hds).
    rewrite Z_of_digits_app, length_app. simpl length.
    replace (Z.of_nat (length ds + 1)) with (Z.succ (Z.of_nat (length ds)))
      by lia.
    rewrite Z.pow_succ_r by lia.
    change (Py.Z_of_digits [d]) with (10 * 0 + Py.digit_val d)%Z.
    change (10 ^ Z.of_nat 1)%Z with 10%Z. lia.
Qed.

(** Reading the digits written for [n] gives [n] back. *)
Lemma Z_of_digits_digits_rev fuel n :
  (0 ≤ n < 2 ^ Z.of_nat fuel)%Z →
  Py.Z_of_digits (reverse (Py.digits_rev fuel n)) = n.
Proof.
  revert n. induction fuel as [|fuel IH]; intros n Hn.
  - simpl in *. assert (n = 0)%Z as -> by lia. done.
  - simpl Py.digits_rev. rewrite reverse_cons, Z_of_digits_app.
    simpl length. unfold Py.Z_of_digits at 2. simpl fold_left.
    pose proof (Z.mod_pos_bound n 10).
    rewrite digit_val_digit_char by lia.
    destruct (n <? 10)%Z eqn:Hlt.
    + apply Z.ltb_lt in Hlt. rewrite Z.mod_small by lia. done.
    + apply Z.ltb_ge in Hlt. rewrite IH.
      * pose proof (Z.div_mod n 10). lia.
      * rewrite Nat2Z.inj_succ, Z.pow_succ_r in Hn by lia.
        split; [apply Z.div_pos; lia|].
        apply Z.div_lt_upper_bound; lia.
Qed.

Lemma Z_of_digits_str_nonneg n : (0 ≤ n)%Z → Py.Z_of_digits (Py.str_nonneg n) = n.
Proof.
  intros Hn. apply Z_of_digits_digits_rev. split; [done|].
  rewrite Nat2Z.inj_succ, Z2Nat.id by apply Z.log2_nonneg.
  destruct (decide (n = 0%Z)) as [->|]; [done|].
  apply Z.log2_spec. lia.
Qed.

Lemma Z_of_digits_zeros k : Py.Z_of_digits (replicate k "0"%char) = 0%Z.
Proof.
  induction k as [|k IH]; [done|].
  change (replicate (S k) "0"%char) with (["0"%char] ++ replicate k "0"%char).
  rewrite Z_of_digits_app, IH. done.
Qed.

Lemma Z_of_digits_fmt_d w n : (0 ≤ n)%Z → Py.Z_of_digits (Py.fmt_d w n) = n.
Proof.
  intros Hn. unfold Py.fmt_d.
  destruct (n <? 0)%Z eqn:Hlt; [apply Z.ltb_lt in Hlt; lia|].
  rewrite Z_of_digits_app, Z_of_digits_zeros, Z_of_digits_str_nonneg by done.
  lia.
Qed.

Lemma Z_of_digits_str_int n : (0 ≤ n)%Z → Py.Z_of_digits (Py.str_int n) = n.
Proof.
  intros Hn. unfold Py.str_int.
  destruct (n <? 0)%Z eqn:Hlt; [apply Z.ltb_lt in Hlt; lia|].
  by apply Z_of_digits_str_nonneg.
Qed.

(** The first three of the six digits of the microseconds are the
    milliseconds. *)
Lemma Z_of_digits_take_milliseconds u :
  (0 ≤ u < 1000000)%Z →
  Py.Z_of_digits (take 3 (Py.fmt_d 6 u)) = (u / 1000)%Z
  ∧ length (take 3 (Py.fmt_d 6 u)) = 3
  ∧ Forall (λ c, Py.is_digit c = true) (take 3 (Py.fmt_d 6 u)).
Proof.
  intros Hu.
  pose proof (fmt_d_length 5 u Hu) as Hlen.
  assert (Forall (λ c, Py.is_digit c = true) (Py.fmt_d 6 u)) as Hd
    by (apply fmt_d_digits; lia).
  pose proof (Z_of_digits_fmt_d 6 u (proj1 Hu)) as Hval.
  rewrite <- (take_drop 3 (Py.fmt_d 6 u)) in Hval, Hd.
  apply Forall_app in Hd as [Hd1 Hd2].
  rewrite Z_of_digits_app in Hval.
  assert (length (drop 3 (Py.fmt_d 6 u)) = 3) as Hl2
    by (rewrite length_drop; lia).
  apply Z_of_digits_bounds in Hd2 as Hb. rewrite Hl2 in Hval, Hb.
  split; [|split; [rewrite length_take; lia | done]].
  change (10 ^ Z.of_nat 3)%Z with 1000%Z in Hval, Hb.
  apply (Z.div_unique _ _ _ (Py.Z_of_digits (drop 3 (Py.fmt_d 6 u))));
    [left; lia | lia].
Qed.

Section fields.
Local Open Scope Z_scope.

Variable td : Datetime.timedelta.
Hypothesis Hdays : Datetime.days td = 0.
Hypothesis Hsecs : 0 ≤ Datetime.seconds td < 36000.
Hypothesis Hus : 0 ≤ Datetime.microseconds td < 1000000.

(** The fields of the formatted time of a duration under ten hours. *)
Lemma format_timedelta_fields :
  format_timedelta td
  = ("0" ++ Py.str_int (Datetime.seconds td / 60 / 60))
      ++ ":" ++ Py.fmt_d 2 (Datetime.seconds td / 60 mod 60)
      ++ ":" ++ Py.fmt_d 2 (Datetime.seconds td mod 60)
      ++ "." ++ (if Datetime.microseconds td =? 0 then "000"
                 else take 3 (Py.fmt_d 6 (Datetime.microseconds td))).
Proof.
  unfold format_timedelta, Datetime.to_str. cbv zeta. rewrite Hdays.
  simpl (0 =? 0). cbv iota.
  destruct (fmt_d_two (Datetime.seconds td / 60 mod 60))
    as (m1 & m2 & -> & Hm1 & Hm2).
  { pose proof (Z.mod_pos_bound (Datetime.seconds td / 60) 60). lia. }
  destruct (fmt_d_two (Datetime.seconds td mod 60))
    as (s1 & s2 & -> & Hs1 & Hs2).
  { pose proof (Z.mod_pos_bound (Datetime.seconds td) 60). lia. }
  assert (0 ≤ Datetime.seconds td / 60 / 60 < 10) as Hh.
  { split; [apply Z.div_pos; [apply Z.div_pos|]; lia|].
    apply Z.div_lt_upper_bound; [lia|].
    apply Z.div_lt_upper_bound; lia. }
  destruct (digits_one (Py.str_int (Datetime.seconds td / 60 / 60)))
    as (h & -> & Hh1).
  { by apply str_int_length_one. }
  { apply str_int_digits. lia. }
  destruct (Datetime.microseconds td =? 0) eqn:Hz.
  - replace (Py.contains_char _ _) with false; [done|].
    symmetry. apply contains_char_false. literals. simpl.
    rewrite !not_elem_of_cons.
    repeat split; try (by apply digit_not_point); try done.
    apply not_elem_of_nil.
  - destruct (digits_six (Py.fmt_d 6 (Datetime.microseconds td)))
      as (f1 & f2 & f3 & r & -> & Hr & Hf1 & Hf2 & Hf3).
    { by apply (fmt_d_length 5). }
    { apply fmt_d_digits. lia. }
    replace (Py.contains_char _ _) with true; [done|].
    symmetry. apply contains_char_true. literals. simpl.
    rewrite !elem_of_cons. auto 20.
Qed.

End fields.

(** The fields of the formatted time of a time code under ten hours, read
    as numbers, are the hours, the minutes and the seconds of the duration
    and its milliseconds, rounded down: the slice cuts the microseconds
    after three digits. *)
Theorem format_time_fields time us :
  time_us time = Some us → (0 ≤ us < 36000000000)%Z →
  ∃ hh mm ss fff,
    format_time time = Ok (hh ++ ":" ++ mm ++ ":" ++ ss ++ "." ++ fff)
    ∧ (length hh = 2 ∧ length mm = 2 ∧ length ss = 2 ∧ length fff = 3)
    ∧ Forall (λ c, Py.is_digit c = true) (hh ++ mm ++ ss ++ fff)
    ∧ Py.Z_of_digits hh = (us / 3600000000)%Z
    ∧ Py.Z_of_digits mm = (us / 60000000 mod 60)%Z
    ∧ Py.Z_of_digits ss = (us / 1000000 mod 60)%Z
    ∧ Py.Z_of_digits fff = (us mod 1000000 / 1000)%Z.
Proof.
  intros Ht Hus.
  rewrite (time_us_format_time _ _ Ht), of_microseconds_under_a_day by lia.
  cbn [bind].
  pose proof (Z.mod_pos_bound us 1000000 eq_refl) as Hm.
  assert (0 ≤ us / 1000000 < 36000)%Z as Hs.
  { split; [apply Z.div_pos; lia | apply Z.div_lt_upper_bound; lia]. }
  rewrite format_timedelta_fields by done.
  cbn [Datetime.seconds Datetime.microseconds].
  set (s := (us / 1000000)%Z) in *. set (u := (us mod 1000000)%Z) in *.
  assert (0 ≤ s / 60 / 60 < 10)%Z as Hh.
  { split; [apply Z.div_pos; [apply Z.div_pos|]; lia|].
    apply Z.div_lt_upper_bound; [lia|].
    apply Z.div_lt_upper_bound; lia. }
  pose proof (Z.mod_pos_bound (s / 60) 60 eq_refl) as Hmin.
  pose proof (Z.mod_pos_bound s 60 eq_refl) as Hsec.
  destruct (Z_of_digits_take_milliseconds u Hm) as (Hfv & Hfl & Hfd).
  exists ("0" ++ Py.str_int (s / 60 / 60)), (Py.fmt_d 2 (s / 60 mod 60)),
    (Py.fmt_d 2 (s mod 60)),
    (if (u =? 0)%Z then "000" : str else take 3 (Py.fmt_d 6 u)).
  split; [by rewrite <- !app_assoc|]. split; [|split].
  - split; [|split; [|split]].
    + rewrite length_app, str_int_length_one by done. done.
    + apply (fmt_d_length 1). lia.
    + apply (fmt_d_length 1). lia.
    + by destruct (u =? 0)%Z.
  - repeat apply Forall_app_2.
    + by repeat constructor.
    + apply str_int_digits; lia.
    + apply fmt_d_digits; lia.
    + apply fmt_d_digits; lia.
    + destruct (u =? 0)%Z; [by repeat constructor | done].
  - split; [|split; [|split]].
    + rewrite Z_of_digits_app, Z_of_digits_str_int by lia.
      change (Py.Z_of_digits "0") with 0%Z. unfold s.
      rewrite !Z.div_div by lia. done.
    + rewrite Z_of_digits_fmt_d by lia. unfold s.
      rewrite !Z.div_div by lia. done.
    + rewrite Z_of_digits_fmt_d by lia. done.
    + destruct (Z.eqb_spec u 0) as [->|_]; [done | done].
Qed.

Lemma format_time_fields_witness :
  ∃ hh mm ss fff,
    format_time "3661.5678"
    = Ok (hh ++ ":" ++ mm ++ ":" ++ ss ++ "." ++ fff)
    ∧ (length hh = 2 ∧ length mm = 2 ∧ length ss = 2 ∧ length fff = 3)
    ∧ Forall (λ c, Py.is_digit c = true) (hh ++ mm ++ ss ++ fff)
    ∧ Py.Z_of_digits hh = (3661567800 / 3600000000)%Z
    ∧ Py.Z_of_digits mm = (3661567800 / 60000000 mod 60)%Z
    ∧ Py.Z_of_digits ss = (3661567800 / 1000000 mod 60)%Z
    ∧ Py.Z_of_digits fff = (3661567800 mod 1000000 / 1000)%Z.
Proof.
  apply (format_time_fields "3661.5678" 3661567800).
  - by vm_compute.
  - lia.
Defined.

(** ** Text without noise is trimmed *)

Lemma lstrip_by_fix sp s :
  Py.lstrip_by sp s = s ↔ s = [] ∨ ∃ c r, s = c :: r ∧ sp c = false.
Proof.
  split.
  - intros H. destruct (lstrip_by_head sp s) as [Hn|(c & r & Hs & Hc)].
    + left. congruence.
    + right. exists c, r. split; [congruence | done].
  - intros [->|(c & r & -> & Hc)]; simpl; [done | by rewrite Hc].
Qed.

Lemma lstrip_by_suffix sp s : ∃ pre, s = pre ++ Py.lstrip_by sp s.
Proof.
  induction s as [|a s [pre IH]]; simpl; [by exists []|].
  destruct (sp a); [|by exists []].
  exists (a :: pre). simpl. by rewrite <- IH.
Qed.

Lemma trimmed_nil : trimmed [].
Proof. by split. Qed.

(** What [strip] returns is trimmed. *)
Lemma trimmed_strip s : trimmed (Py.strip s).
Proof.
  unfold trimmed, Py.strip, Py.strip_by.
  set (u := Py.lstrip_by Py.isspace s).
  destruct (lstrip_by_suffix Py.isspace (reverse u)) as [pre Hpre].
  set (t := Py.lstrip_by Py.isspace (reverse u)) in *.
  rewrite reverse_involutive. split.
  - apply lstrip_by_fix.
    destruct t as [|c r] eqn:Ht; [by left | right].
    apply (f_equal reverse) in Hpre.
    rewrite reverse_involutive, reverse_app in Hpre.
    destruct (reverse (c :: r)) as [|c0 r0] eqn:E.
    { by apply (f_equal reverse) in E; rewrite reverse_involutive in E. }
    exists c0, r0. split; [done|].
    destruct (lstrip_by_head Py.isspace s) as [Hu|(c' & r' & Hu & Hc')];
      fold u in Hu; rewrite Hu in Hpre; [done|].
    simpl in Hpre. by injection Hpre as -> _.
  - apply lstrip_by_fix.
    destruct (lstrip_by_head Py.isspace (reverse u)) as [Hn|(c & r & Hs & Hc)];
      fold t in Hn || fold t in Hs; [by left | right; eauto].
Qed.

Lemma trimmed_app a b : trimmed a → trimmed b → trimmed (a ++ b).
Proof.
  intros [Ha1 Ha2] [Hb1 Hb2]. unfold trimmed. rewrite reverse_app.
  apply lstrip_by_fix in Ha1, Ha2, Hb1, Hb2. rewrite !lstrip_by_fix.
  split.
  - destruct Ha1 as [->|(c & r & -> & Hc)]; [done|]. right.
    exists c, (r ++ b). done.
  - destruct Hb2 as [Hb|(c & r & -> & Hc)].
    + rewrite Hb. done.
    + right. exists c, (r ++ reverse a). done.
Qed.

(** Stripping a trimmed text changes nothing. *)
Lemma strip_trimmed s : trimmed s → Py.strip s = s.
Proof.
  intros [H1 H2]. unfold Py.strip, Py.strip_by.
  by rewrite H1, H2, reverse_involutive.
Qed.

(** Without noise preservation the texts of the walk are trimmed. *)
Lemma cue_visit_trimmed speaker cw a cw' :
  cue_visit false speaker cw a = Ok cw' →
  trimmed (cw_text cw) ∧ Forall (λ c, trimmed (cue_text c)) (cues cw) →
  trimmed (cw_text cw') ∧ Forall (λ c, trimmed (cue_text c)) (cues cw').
Proof.
  unfold cue_visit. intros H [Ht Hc].
  destruct (decide (tag a = "Turn")); [by injection H as <-|].
  destruct (decide (tag a = "Sync")).
  { apply bind_ok in H as (t & _ & H).
    destruct (tail a) as [tl|]; [|by destruct (Py.truthy _)].
    destruct (Py.truthy (cw_text cw)); injection H as <-; simpl.
    - split; [apply trimmed_strip|].
      apply Forall_app. split; [done|]. by apply Forall_singleton.
    - split; [|done]. apply trimmed_app; [done | apply trimmed_strip]. }
  destruct (decide (tag a = "Event")); [|by injection H as <-].
  simpl in H. destruct (tail a) as [tl|]; [|done]. injection H as <-.
  split; [|done]. simpl. apply trimmed_app; [done | apply trimmed_strip].
Qed.

Lemma turn_cues_trimmed speakers turn tc :
  turn_cues false speakers turn = Ok tc →
  Forall (λ c, trimmed (cue_text c)) tc.
Proof.
  unfold turn_cues. intros H.
  apply bind_ok in H as (t0 & _ & H). apply bind_ok in H as (w & E & H).
  assert (trimmed (cw_text w) ∧ Forall (λ c, trimmed (cue_text c)) (cues w))
    as [Ht Hc].
  { eapply (foldM_invariant
              (λ w, trimmed (cw_text w)
                    ∧ Forall (λ c, trimmed (cue_text c)) (cues w))), E.
    - intros s x s' _ Hs Hstep. by eapply cue_visit_trimmed.
    - split; [apply trimmed_nil | by constructor]. }
  destruct (Py.truthy (cw_text w)).
  - apply bind_ok in H as (t1 & _ & H). injection H as <-.
    apply Forall_app. split; [done|]. by apply Forall_singleton.
  - by injection H as <-.
Qed.

(** Without noise preservation the text of every cue of a conversion is
    trimmed already: the [strip] before it is written changes nothing, and
    the line written is the text as accumulated, the trimmed tails one
    after the other. *)
Theorem strip_without_noise root language add_speakers lines :
  convert_lines root language add_speakers false = Ok lines →
  ∃ cs body,
    document_cues root false = Ok cs
    ∧ cues_lines add_speakers cs = Ok body
    ∧ lines = header language ++ body
    ∧ Forall (λ c, Py.strip (cue_text c) = cue_text c) cs.
Proof.
  intros (cs & body & Hcs & Hbody & ->)%convert_lines_cues.
  exists cs, body. do 3 (split; [done|]).
  unfold document_cues in Hcs. apply bind_ok in Hcs as (speakers & _ & Hcs).
  destruct (find _ root); [|done].
  eapply (foldM_invariant
            (Forall (λ c, Py.strip (cue_text c) = cue_text c))), Hcs;
    [|by constructor].
  intros cs0 turn cs1 _ Hcs0 Hstep.
  apply bind_ok in Hstep as (tc & Htc & Hstep). injection Hstep as <-.
  apply Forall_app. split; [done|].
  eapply Forall_impl; [by eapply turn_cues_trimmed|].
  intros c. apply strip_trimmed.
Qed.

Lemma strip_without_noise_witness :
  ∃ cs body,
    document_cues doc_two_lines false = Ok cs
    ∧ cues_lines true cs = Ok body
    ∧ ["WEBVTT" : str; []; "00:00:00.000 --> 00:00:05.000" : str;
       "<v Alice>first line" ++ "010"%char :: "Language: fr"; []]
      = header None ++ body
    ∧ Forall (λ c, Py.strip (cue_text c) = cue_text c) cs.
Proof.
  apply (strip_without_noise doc_two_lines None true).
  by vm_compute.
Defined.

(** ** The dictionary of the speakers *)

Lemma names_of_snoc id l s :
  names_of id (l ++ [s])
  = names_of id l
      ++ (if decide (attrib s !! ("id" : str) = Some id)
          then option_list (attrib s !! ("name" : str)) else []).
Proof.
  unfold names_of. rewrite omap_app. f_equal. simpl.
  destruct (decide _); [|done]. by destruct (attrib s !! _).
Qed.

Lemma foldM_speakers (l : list Element) (d : gmap str str) :
  foldM (λ (d : gmap str str) speaker,
           let! id := getitem (attrib speaker) "id" in
           let! name := getitem (attrib speaker) "name" in
           Ok (<[id := name]> d)) l (∅ : gmap str str) = Ok d →
  Forall (λ s, is_Some (attrib s !! ("id" : str))
               ∧ is_Some (attrib s !! ("name" : str))) l
  ∧ ∀ id, d !! id = last (names_of id l).
Proof.
  revert d. induction l as [|s l IH] using rev_ind; intros d H.
  - injection H as <-. split; [done|]. intros id. apply lookup_empty.
  - rewrite foldM_snoc in H. apply bind_ok in H as (d0 & Hd0 & H).
    destruct (IH _ Hd0) as [Hall Hlook].
    apply bind_ok in H as (id' & Hid & H).
    apply bind_ok in H as (name & Hname & H). injection H as <-.
    unfold getitem in Hid, Hname.
    destruct (attrib s !! ("id" : str)) as [i|] eqn:Ei; [|done].
    destruct (attrib s !! ("name" : str)) as [n|] eqn:En; [|done].
    injection Hid as <-. injection Hname as <-. split.
    + apply Forall_app. split; [done|]. apply Forall_singleton.
      rewrite Ei, En. split; by eexists.
    + intros id. rewrite names_of_snoc, Ei, En.
      destruct (decide (Some i = Some id)) as [[= ->]|Hne].
      * simpl option_list. by rewrite lookup_insert_eq, last_snoc.
      * rewrite lookup_insert_ne by congruence.
        by rewrite app_nil_r.
Qed.

(** The dictionary of the speakers gives, for an identifier, the name of
    the last [Speaker] element with this identifier; it is built only if
    every [Speaker] element has an identifier and a name. *)
Theorem read_speakers_last root speakers :
  read_speakers root = Ok speakers →
  ∃ sp, find "Speakers" root = Some sp
    ∧ Forall (λ s, is_Some (attrib s !! ("id" : str))
                   ∧ is_Some (attrib s !! ("name" : str)))
        (iter (Some ("Speaker" : str)) sp)
    ∧ ∀ id, speakers !! id
            = last (names_of id (iter (Some ("Speaker" : str)) sp)).
Proof.
  unfold read_speakers. destruct (find _ root) as [sp|]; [|done].
  intros H. exists sp. split; [done|]. by apply foldM_speakers.
Qed.

Lemma read_speakers_last_witness :
  ∃ sp, find "Speakers" doc_hello = Some sp
    ∧ Forall (λ s, is_Some (attrib s !! ("id" : str))
                   ∧ is_Some (attrib s !! ("name" : str)))
        (iter (Some ("Speaker" : str)) sp)
    ∧ ∀ id, (dict [("spk1", "Alice")]) !! id
            = last (names_of id (iter (Some ("Speaker" : str)) sp)).
Proof.
  apply (read_speakers_last doc_hello). vm_compute. reflexivity.
Defined.

(** ** The number of cues of a turn *)




(** ** When the conversion succeeds *)

Lemma cue_visit_grows noise speaker cw a cw' :
  cue_visit noise speaker cw a = Ok cw' → ∃ more, cues cw' = cues cw ++ more.
Proof.
  unfold cue_visit. intros H.
  destruct (decide (tag a = "Turn")).
  { injection H as <-. exists []. by rewrite app_nil_r. }
  destruct (decide (tag a = "Sync")).
  { apply bind_ok in H as (t & _ & H).
    destruct (Py.truthy (cw_text cw));
      apply bind_ok in H as (fragment & _ & H); injection H as <-; simpl.
    - eauto.
    - exists []. by rewrite app_nil_r. }
  destruct (decide (tag a = "Event")).
  - apply bind_ok in H as (text & _ & H).
    apply bind_ok in H as (fragment & _ & H). injection H as <-.
    exists []. by rewrite app_nil_r.
  - injection H as <-. exists []. by rewrite app_nil_r.
Qed.

Lemma foldM_cue_visit_grows noise speaker l cw cw' :
  foldM (cue_visit noise speaker) l cw = Ok cw' →
  ∃ more, cues cw' = cues cw ++ more.
Proof.
  revert cw. induction l as [|a l IH]; intros cw H; simpl in H.
  - injection H as <-. exists []. by rewrite app_nil_r.
  - apply bind_ok in H as (cw1 & Hstep & H).
    apply cue_visit_grows in Hstep as [m1 Hm1].
    apply IH in H as [m2 Hm2]. exists (m1 ++ m2).
    by rewrite Hm2, Hm1, app_assoc.
Qed.

Lemma cues_lines_prefix spk l1 l2 :
  is_ok (cues_lines spk (l1 ++ l2)) → is_ok (cues_lines spk l1).
Proof.
  intros [body H]. rewrite cues_lines_app in H.
  apply bind_ok in H as (b1 & Hb1 & _). by exists b1.
Qed.

(** The lines of a list of cues exist when the times of each cue can be
    formatted. *)
Lemma cues_lines_is_ok spk cs :
  is_ok (cues_lines spk cs) ↔
  Forall (λ c, is_ok (format_time (cue_start c))
               ∧ is_ok (format_time (cue_end c))) cs.
Proof.
  split.
  - intros [body H]. apply Forall_forall. intros c Hc.
    by eapply cues_lines_times.
  - induction 1 as [|c cs [[s Hs] [e He]] _ [body IH]]; [by exists []|].
    change (c :: cs) with ([c] ++ cs).
    rewrite cues_lines_app, cues_lines_one, IH.
    unfold cue_lines, generate_timestamp. rewrite Hs, He. by eexists.
Qed.

(** A step of the walk that collects the cues is a step of the converter,
    when the cues collected can be written. *)
Lemma cue_visit_visit spk noise speaker base w a cw cw' :
  cue_visit noise speaker cw a = Ok cw' →
  walk_cues spk base w cw → is_ok (cues_lines spk (cues cw')) →
  ∃ w', visit spk noise ("<v " ++ speaker ++ ">") w a = Ok w'
        ∧ walk_cues spk base w' cw'.
Proof.
  intros Hc (body & Hbody & Hl & Hs & Ht) [body' Hb'].
  unfold cue_visit in Hc. unfold visit. rewrite Ht, Hs.
  destruct (decide (tag a = "Turn")).
  { injection Hc as <-. eexists. split; [done|]. by exists body. }
  destruct (decide (tag a = "Sync")).
  { apply bind_ok in Hc as (t & -> & Hc). cbn [bind].
    destruct (Py.truthy (cw_text cw)).
    - apply bind_ok in Hc as (fragment & -> & Hc). injection Hc as <-.
      simpl in Hb'. rewrite Hl.
      rewrite (proj2 (append_cue_ok spk speaker base body (base ++ body')
                        (cues cw) (cw_start cw) t (cw_text cw) Hbody))
        by eauto.
      cbn [bind]. eexists. split; [done|]. by exists body'.
    - apply bind_ok in Hc as (fragment & -> & Hc). injection Hc as <-.
      cbn [bind]. eexists. split; [done|]. by exists body. }
  destruct (decide (tag a = "Event")).
  - apply bind_ok in Hc as (text & -> & Hc).
    apply bind_ok in Hc as (fragment & -> & Hc). injection Hc as <-.
    cbn [bind]. eexists. split; [done|]. by exists body.
  - injection Hc as <-. eexists. split; [done|]. by exists body.
Qed.

Lemma foldM_cue_visit_visit spk noise speaker base l w cw cw' :
  foldM (cue_visit noise speaker) l cw = Ok cw' →
  walk_cues spk base w cw → is_ok (cues_lines spk (cues cw')) →
  ∃ w', foldM (visit spk noise ("<v " ++ speaker ++ ">")) l w = Ok w'
        ∧ walk_cues spk base w' cw'.
Proof.
  revert w cw. induction l as [|a l IH]; intros w cw H Hsim Hok;
    simpl in H; cbn [foldM].
  - injection H as <-. eauto.
  - apply bind_ok in H as (cw1 & Hstep & H).
    destruct (foldM_cue_visit_grows _ _ _ _ _ H) as [more Hmore].
    rewrite Hmore in Hok.
    destruct (cue_visit_visit spk _ _ base w _ _ _ Hstep Hsim)
      as (w1 & -> & Hsim1); [by eapply cues_lines_prefix|].
    cbn [bind]. apply (IH _ _ H Hsim1). by rewrite Hmore.
Qed.

Lemma turn_cues_visit_turn spk noise speakers ls turn tc body :
  turn_cues noise speakers turn = Ok tc → cues_lines spk tc = Ok body →
  visit_turn spk noise speakers ls turn = Ok (ls ++ body).
Proof.
  unfold turn_cues, visit_turn. fold (speaker_of speakers turn).
  intros H Hbody. apply bind_ok in H as (t0 & -> & H). cbn [bind].
  apply bind_ok in H as (cw & Hcw & H).
  assert (is_ok (cues_lines spk (cues cw))) as Hok.
  { destruct (Py.truthy (cw_text cw)).
    - apply bind_ok in H as (t1 & _ & H). injection H as <-.
      eapply cues_lines_prefix. by eexists.
    - injection H as <-. by eexists. }
  destruct (foldM_cue_visit_visit spk _ _ ls _ (Walk ls t0 [] []) _ _ Hcw)
    as (w & -> & body0 & Hbody0 & Hl & Hs & Ht); [|done|].
  { exists []. by rewrite app_nil_r. }
  cbn [bind]. rewrite Ht, Hs, Hl.
  destruct (Py.truthy (cw_text cw)).
  - apply bind_ok in H as (t1 & -> & H). injection H as <-. cbn [bind].
    apply (append_cue_ok spk _ ls body0 _ (cues cw)); eauto.
  - injection H as <-. congruence.
Qed.

Lemma document_cues_convert_lines root language spk noise cs body :
  document_cues root noise = Ok cs → cues_lines spk cs = Ok body →
  convert_lines root language spk noise = Ok (header language ++ body).
Proof.
  rewrite convert_lines_unfold. unfold document_cues. intros H Hbody.
  apply bind_ok in H as (speakers & -> & H). cbn [bind].
  destruct (find _ root); [|done].
  revert cs body H Hbody.
  induction (visited_turns root) as [|turn l IH] using rev_ind;
    intros cs body H Hbody.
  - injection H as <-. injection Hbody as <-. by rewrite app_nil_r.
  - rewrite foldM_snoc in H. apply bind_ok in H as (cs0 & Hcs0 & H).
    apply bind_ok in H as (tc & Htc & H). injection H as <-.
    rewrite cues_lines_app in Hbody.
    apply bind_ok in Hbody as (b0 & Hb0 & Hbody).
    apply bind_ok in Hbody as (b1 & Hb1 & Hbody). injection Hbody as <-.
    rewrite foldM_snoc, (IH _ _ Hcs0 Hb0). cbn [bind].
    rewrite (turn_cues_visit_turn _ _ _ _ _ _ _ Htc Hb1).
    by rewrite app_assoc.
Qed.

(** The conversion gives a text exactly when the walk that collects the
    cues ends without exception and the start and the end of every cue
    collected can be formatted; the text is the header and the lines of
    these cues, joined by newlines. *)
Theorem convert_succeeds root language add_speakers preserve_noise :
  (∀ out,
     convert root language add_speakers preserve_noise = Ok out ↔
     ∃ cs body,
       document_cues root preserve_noise = Ok cs
       ∧ cues_lines add_speakers cs = Ok body
       ∧ out = Py.join ["010"%char] (header language ++ body))
  ∧ (is_ok (convert root language add_speakers preserve_noise) ↔
     ∃ cs, document_cues root preserve_noise = Ok cs
           ∧ Forall (λ c, is_ok (format_time (cue_start c))
                          ∧ is_ok (format_time (cue_end c))) cs).
Proof.
  assert (∀ out,
            convert root language add_speakers preserve_noise = Ok out ↔
            ∃ cs body,
              document_cues root preserve_noise = Ok cs
              ∧ cues_lines add_speakers cs = Ok body
              ∧ out = Py.join ["010"%char] (header language ++ body)) as Hout.
  { intros out. split.
    - intros (lines & Hl & ->)%convert_ok.
      apply convert_lines_cues in Hl as (cs & body & Hcs & Hbody & ->).
      eauto.
    - intros (cs & body & Hcs & Hbody & ->). apply convert_ok.
      eexists. split; [|done]. by eapply document_cues_convert_lines. }
  split; [done|]. split.
  - intros [out (cs & body & Hcs & Hbody & _)%Hout].
    exists cs. split; [done|].
    apply (cues_lines_is_ok add_speakers). by exists body.
  - intros (cs & Hcs & [body Hbody]%(cues_lines_is_ok add_speakers)).
    eexists. apply Hout. eauto.
Qed.
